(** * frontend.py: the Bedrock agent chat front end

    A shallow embedding of [src/frontend.py].  The Python functions become
    computations in a state-and-exception monad over a [world] that holds the
    Streamlit elements drawn so far, [st.session_state] and the requests sent
    through the agent client.  Python values, subscripting, [in], [dict.get],
    truthiness and [bytes.decode] are written out with the exceptions they
    raise.  [print] only writes to the terminal and is left out. *)

From Stdlib Require Import List String Ascii ZArith NArith Bool Lia.
From Stdlib.Strings Require Import Byte.
Import ListNotations.
Open Scope string_scope.
Open Scope list_scope.
Set Warnings "-register-all".

(** ** Python values *)

(** The objects found in an event of the stream and in a parsed JSON text.
    A [dict] keeps its insertion order; its keys are strings.  A [str] is kept
    as its UTF-8 encoding. *)
Inductive value : Type :=
| VNone
| VBool (b : bool)
| VInt (z : Z)
| VStr (s : string)
| VBytes (bs : list byte)
| VList (l : list value)
| VDict (d : list (string * value)).

(** A subscript: [x["name"]] or [x[0]]. *)
Inductive key : Type :=
| K (name : string)
| I (index : Z).

(** The exceptions the program can meet.  [EventStreamError] and [ClientError]
    are the two botocore classes named by the [except] clause of [main]; they
    carry [str(e)].  [OtherException] is any class that derives from neither. *)
Inductive exn : Type :=
| KeyError (k : key)
| IndexError
| TypeError
| AttributeError
| UnicodeDecodeError
| UnboundLocalError
| JSONDecodeError
| EventStreamError (str : string)
| ClientError (str : string)
| OtherException (cls str : string).

Inductive result (A : Type) : Type :=
| Ok (a : A)
| Raise (e : exn).
Arguments Ok {A} a.
Arguments Raise {A} e.

Definition rbind {A B} (r : result A) (f : A -> result B) : result B :=
  match r with
  | Ok a => f a
  | Raise e => Raise e
  end.

(** *** Strings *)

(** [sub in s] on two [str]. *)
Fixpoint contains (sub s : string) : bool :=
  if prefix sub s then true
  else match s with
       | EmptyString => false
       | String _ s' => contains sub s'
       end.

Definition is_continuation (c : ascii) : bool :=
  let n := N_of_ascii c in ((128 <=? n) && (n <=? 191))%N.

(** The characters of a [str]: every continuation byte of the encoding stays
    with the lead byte before it. *)
Fixpoint code_points (s : string) : list string :=
  match s with
  | EmptyString => []
  | String c rest =>
      match code_points rest with
      | String c' p :: ps =>
          if is_continuation c' then String c (String c' p) :: ps
          else String c "" :: String c' p :: ps
      | ps => String c "" :: ps
      end
  end.

(** *** UTF-8 *)

Definition between (lo hi : N) (b : byte) : bool :=
  ((lo <=? Byte.to_N b) && (Byte.to_N b <=? hi))%N.

Definition cont : byte -> bool := between 128 191.

(** The well-formed byte sequences of UTF-8 (no overlong form, no surrogate,
    nothing above U+10FFFF), as the strict decoder of [bytes.decode()] accepts
    them. *)
Fixpoint utf8_valid (bs : list byte) : bool :=
  match bs with
  | [] => true
  | b0 :: r0 =>
      if between 0 127 b0 then utf8_valid r0
      else
        match r0 with
        | [] => false
        | b1 :: r1 =>
            if between 194 223 b0 then cont b1 && utf8_valid r1
            else
              match r1 with
              | [] => false
              | b2 :: r2 =>
                  if between 224 224 b0 then
                    between 160 191 b1 && cont b2 && utf8_valid r2
                  else if between 237 237 b0 then
                    between 128 159 b1 && cont b2 && utf8_valid r2
                  else if between 225 239 b0 then
                    cont b1 && cont b2 && utf8_valid r2
                  else
                    match r2 with
                    | [] => false
                    | b3 :: r3 =>
                        if between 240 240 b0 then
                          between 144 191 b1 && cont b2 && cont b3 && utf8_valid r3
                        else if between 241 243 b0 then
                          cont b1 && cont b2 && cont b3 && utf8_valid r3
                        else if between 244 244 b0 then
                          between 128 143 b1 && cont b2 && cont b3 && utf8_valid r3
                        else false
                    end
              end
        end
  end.

(** [bs.decode()]. *)
Definition bytes_decode (bs : list byte) : result string :=
  if utf8_valid bs then Ok (string_of_list_byte bs) else Raise UnicodeDecodeError.

(** *** Dictionaries *)

Fixpoint lookup (k : string) (d : list (string * value)) : option value :=
  match d with
  | [] => None
  | (k', v) :: d' => if String.eqb k k' then Some v else lookup k d'
  end.

Definition has_key (k : string) (d : list (string * value)) : bool :=
  match lookup k d with
  | Some _ => true
  | None => false
  end.

(** *** Operators *)

(** [x == "name"]: only a [str] equals a [str]. *)
Definition eq_str (x : value) (name : string) : bool :=
  match x with
  | VStr s => String.eqb s name
  | _ => false
  end.

(** [bool(x)]. *)
Definition truthy (x : value) : bool :=
  match x with
  | VNone => false
  | VBool b => b
  | VInt z => negb (z =? 0)%Z
  | VStr s => negb (String.eqb s "")
  | VBytes bs => match bs with [] => false | _ => true end
  | VList l => match l with [] => false | _ => true end
  | VDict d => match d with [] => false | _ => true end
  end.

(** ["name" in x]. *)
Definition py_in (name : string) (x : value) : result bool :=
  match x with
  | VDict d => Ok (has_key name d)
  | VStr s => Ok (contains name s)
  | VList l => Ok (existsb (fun v => eq_str v name) l)
  | VNone | VBool _ | VInt _ | VBytes _ => Raise TypeError
  end.

(** The position a sequence of length [len] gives to the index [i]; a
    negative index counts from the end. *)
Definition position (i : Z) (len : nat) : option nat :=
  let n := Z.of_nat len in
  if (0 <=? i)%Z then (if (i <? n)%Z then Some (Z.to_nat i) else None)
  else if (0 <=? n + i)%Z then Some (Z.to_nat (n + i))
  else None.

Definition at_position {A} (i : Z) (l : list A) : result A :=
  match position i (List.length l) with
  | Some n => match nth_error l n with
              | Some a => Ok a
              | None => Raise IndexError
              end
  | None => Raise IndexError
  end.

(** [x[k]]. *)
Definition subscript (x : value) (k : key) : result value :=
  match x, k with
  | VDict d, K name =>
      match lookup name d with
      | Some v => Ok v
      | None => Raise (KeyError k)
      end
  | VDict _, I _ => Raise (KeyError k)
  | VList l, I i => at_position i l
  | VStr s, I i => rbind (at_position i (code_points s)) (fun c => Ok (VStr c))
  | VBytes bs, I i => rbind (at_position i bs) (fun b => Ok (VInt (Z.of_N (Byte.to_N b))))
  | VList _, K _ | VStr _, K _ | VBytes _, K _ => Raise TypeError
  | VNone, _ | VBool _, _ | VInt _, _ => Raise TypeError
  end.

(** [x[k1][k2]...]. *)
Fixpoint subscripts (x : value) (ks : list key) : result value :=
  match ks with
  | [] => Ok x
  | k :: ks' => rbind (subscript x k) (fun y => subscripts y ks')
  end.

(** [x.get(name, default)]. *)
Definition dict_get (x : value) (name : string) (default : value) : result value :=
  match x with
  | VDict d =>
      match lookup name d with
      | Some v => Ok v
      | None => Ok default
      end
  | _ => Raise AttributeError
  end.

(** [x.decode()]. *)
Definition decode (x : value) : result string :=
  match x with
  | VBytes bs => bytes_decode bs
  | _ => Raise AttributeError
  end.

(** ** Streamlit elements *)

(** An f-string, kept as its literal parts and the values it interpolates. *)
Inductive fpart : Type :=
| Lit (s : string)
| Interp (v : value).

Definition fstring := list fpart.

(** What the program draws.  [Expander] and [ChatMessage] are containers: the
    elements drawn inside their [with] block are their children. *)
Inductive widget : Type :=
| StTitle (s : string)
| StText (s : string)
| StMarkdown (v : value)
| StWrite (v : value)
| StJson (v : value)
| StInfo (s : string)
| StError (s : string)
| Expander (label : fstring) (expanded : bool) (children : list widget)
| ChatMessage (name : string) (children : list widget).

(** ** The world *)

(** An entry of the chat history, [{"role": ..., "text": ...}]. *)
Record message : Type := mkMessage { role : string; text : string }.

(** The handle [boto3.client(service, region_name=region)] returns. *)
Record client_handle : Type := mkClient { service : string; region_name : string }.

(** The keyword arguments of [client.invoke_agent]. *)
Record request : Type := mkRequest {
  agentId : option string;
  agentAliasId : option string;
  sessionId : string;
  enableTrace : bool;
  inputText : string }.

(** The event stream under [response["completion"]]: iterating it yields
    [events] in order and then, when [failure] is set, raises it. *)
Record event_stream : Type := mkStream {
  events : list value;
  failure : option exn }.

(** The [dict] that [invoke_agent] returns; only its ["completion"] key is read. *)
Record response : Type := mkResponse { completion : option event_stream }.

(** [ui] is the list of elements drawn in the current container, oldest
    first.  The next four fields are the keys of [st.session_state]: [None] is
    a key not set yet.  The list under [messages] is the one list object that
    [main] and [handle_agent_response] call [messages]: an append through
    either name is an update of this field.  [calls] logs the requests sent
    through [client.invoke_agent]. *)
Record world : Type := mkWorld {
  ui : list widget;
  client : option client_handle;
  session_id : option string;
  messages : option (list message);
  last_prompt : option (option string);
  calls : list request }.

Definition set_ui (u : list widget) (w : world) : world :=
  mkWorld u (client w) (session_id w) (messages w) (last_prompt w) (calls w).

Definition add_ui (us : list widget) (w : world) : world :=
  set_ui (ui w ++ us) w.

Definition set_messages (m : option (list message)) (w : world) : world :=
  mkWorld (ui w) (client w) (session_id w) m (last_prompt w) (calls w).

Definition add_call (r : request) (w : world) : world :=
  mkWorld (ui w) (client w) (session_id w) (messages w) (last_prompt w) (calls w ++ [r]).

(** ** The monad *)

Definition M (A : Type) : Type := world -> result A * world.

Definition ret {A} (a : A) : M A := fun w => (Ok a, w).

Definition raise {A} (e : exn) : M A := fun w => (Raise e, w).

Definition bind {A B} (m : M A) (f : A -> M B) : M B :=
  fun w => match m w with
           | (Ok a, w') => f a w'
           | (Raise e, w') => (Raise e, w')
           end.

Notation "x <- m ;; k" := (bind m (fun x => k))
  (at level 61, m at next level, right associativity).
Notation "m ;; k" := (bind m (fun _ => k))
  (at level 61, right associativity).

(** A pure Python expression, evaluated. *)
Definition eval {A} (r : result A) : M A := fun w => (r, w).

(** [try: body / except: handler]: what [body] did before it raised stays. *)
Definition try_except {A} (body : M A) (handler : exn -> M A) : M A :=
  fun w => match body w with
           | (Ok a, w') => (Ok a, w')
           | (Raise e, w') => handler e w'
           end.

(** [with container: body]: the container is drawn with what [body] drew in
    it, also when [body] raises. *)
Definition within {A} (container : list widget -> widget) (body : M A) : M A :=
  fun w => match body (set_ui [] w) with
           | (r, w') => (r, set_ui (ui w ++ [container (ui w')]) w')
           end.

(** A Streamlit call that draws one element. *)
Definition draw (x : widget) : M unit := fun w => (Ok tt, add_ui [x] w).

(** [for x in xs: body]. *)
Fixpoint for_each {A} (xs : list A) (body : A -> M unit) : M unit :=
  match xs with
  | [] => ret tt
  | x :: xs' => body x ;; for_each xs' body
  end.

(** [messages.append(m)]. *)
Definition messages_append (m : message) : M unit :=
  fun w => match messages w with
           | Some l => (Ok tt, set_messages (Some (l ++ [m])) w)
           | None => (Raise AttributeError, w)
           end.

(** ** What the program takes from outside *)

(** [json_loads] is [json.loads]; [getenv] is [os.getenv] once [load_dotenv()]
    has run; [uuid4] is the text [str(uuid.uuid4())] gives when it is asked
    for; [invoke_agent] is [client.invoke_agent], the call to the remote agent. *)
Record environment : Type := mkEnv {
  json_loads : value -> result value;
  getenv : string -> option string;
  uuid4 : string;
  invoke_agent : client_handle -> request -> result response }.

(** ** The program *)

Section Frontend.

Variable env : environment.

(** What [initialize_session] leaves under a key of [st.session_state]: the
    value already there, or the initial one when the key is missing. *)
Definition client_or_new (w : world) : client_handle :=
  match client w with
  | Some c => c
  | None => mkClient "bedrock-agent-runtime" "us-east-1"
  end.

Definition session_id_or_new (w : world) : string :=
  match session_id w with
  | Some s => s
  | None => uuid4 env
  end.

Definition messages_or_new (w : world) : list message :=
  match messages w with
  | Some l => l
  | None => []
  end.

Definition last_prompt_or_new (w : world) : option string :=
  match last_prompt w with
  | Some p => p
  | None => None
  end.

(** [initialize_session()]: each key of [st.session_state] is set when it is
    missing; the client and the session id are returned (the third component
    of the Python tuple, the list of messages, stays in the world). *)
Definition initialize_session : M (client_handle * string) :=
  fun w =>
    (Ok (client_or_new w, session_id_or_new w),
     mkWorld (ui w) (Some (client_or_new w)) (Some (session_id_or_new w))
       (Some (messages_or_new w)) (Some (last_prompt_or_new w)) (calls w)).

(** [display_chat_history(messages)]. *)
Definition display_chat_history : M unit :=
  draw (StTitle "わが家のAI技術顧問") ;;
  draw (StText "画面下部のチャットボックスから何でも質問してね！") ;;
  msgs <- (fun w => match messages w with
                    | Some l => (Ok l, w)
                    | None => (Raise AttributeError, w)
                    end) ;;
  for_each msgs (fun message =>
    within (ChatMessage (role message))
      (draw (StMarkdown (VStr (text message))))).

(** [display_observation_details(observation)]. *)
Definition display_observation_details (observation : value) : M unit :=
  obs_type <- eval (dict_get observation "type" VNone) ;;
  if eq_str obs_type "KNOWLEDGE_BASE" then
    within (Expander [Lit "🔍 ナレッジベースから検索結果を取得しました"] false)
      (kb_output <- eval (dict_get observation "knowledgeBaseLookupOutput" (VDict [])) ;;
       references <- eval (dict_get kb_output "retrievedReferences" (VList [])) ;;
       if truthy references then draw (StJson references)
       else draw (StInfo "関連するドキュメントは見つかりませんでした。"))
  else if eq_str obs_type "AGENT_COLLABORATOR" then
    ac_output <- eval (dict_get observation "agentCollaboratorInvocationOutput" (VDict [])) ;;
    agent_name <- eval (dict_get ac_output "agentCollaboratorName" (VStr "不明なエージェント")) ;;
    within (Expander [Lit "🤖 サブエージェント「"; Interp agent_name;
                      Lit "」から回答を取得しました"] true)
      (output <- eval (dict_get ac_output "output" (VDict [])) ;;
       output_text <- eval (dict_get output "text" VNone) ;;
       if truthy output_text then draw (StMarkdown output_text)
       else draw (StInfo "サブエージェントからのテキスト出力はありませんでした。"))
  else ret tt.

(** The five blocks of [handle_trace_event], one per sub-field of the
    orchestration trace. *)

(** Lines 77-89. *)
Definition show_model_input (trace : value) : M unit :=
  within (Expander [Lit "🤔 思考中…"] false)
    (input_trace <- eval (subscripts trace [K "modelInvocationInput"; K "text"]) ;;
     try_except
       (parsed <- eval (json_loads env input_trace) ;;
        draw (StJson parsed))
       (fun _ => draw (StWrite input_trace))).

(** Lines 92-102. *)
Definition show_model_output (trace : value) : M unit :=
  output_trace <- eval (subscripts trace
                          [K "modelInvocationOutput"; K "rawResponse"; K "content"]) ;;
  within (Expander [Lit "💡 思考がまとまりました"] false)
    (try_except
       (thinking <- eval (rbind (json_loads env output_trace)
                            (fun j => subscripts j [K "content"; I 0; K "text"])) ;;
        if truthy thinking then draw (StWrite thinking)
        else
          first <- eval (rbind (json_loads env output_trace)
                           (fun j => subscripts j [K "content"; I 0])) ;;
          draw (StWrite first))
       (fun _ => draw (StWrite output_trace))).

(** Lines 105-107. *)
Definition show_rationale (trace : value) : M unit :=
  within (Expander [Lit "✅ 次のアクションを決定しました"] true)
    (t <- eval (subscripts trace [K "rationale"; K "text"]) ;;
     draw (StWrite t)).

(** Lines 110-124. *)
Definition show_invocation_input (trace : value) : M unit :=
  invocation_type <- eval (subscripts trace [K "invocationInput"; K "invocationType"]) ;;
  if eq_str invocation_type "AGENT_COLLABORATOR" then
    agent_name <- eval (subscripts trace
                          [K "invocationInput"; K "agentCollaboratorInvocationInput";
                           K "agentCollaboratorName"]) ;;
    within (Expander [Lit "🤖 サブエージェント「"; Interp agent_name;
                      Lit "」を呼び出し中…"] true)
      (t <- eval (subscripts trace
                    [K "invocationInput"; K "agentCollaboratorInvocationInput";
                     K "input"; K "text"]) ;;
       draw (StWrite t))
  else if eq_str invocation_type "KNOWLEDGE_BASE" then
    within (Expander [Lit "📖 ナレッジベースを検索中…"] false)
      (t <- eval (subscripts trace
                    [K "invocationInput"; K "knowledgeBaseLookupInput"; K "text"]) ;;
       draw (StWrite t))
  else if eq_str invocation_type "ACTION_GROUP" then
    within (Expander [Lit "💻 Lambdaを実行中…"] false)
      (t <- eval (subscripts trace [K "invocationInput"; K "actionGroupInvocationInput"]) ;;
       draw (StWrite t))
  else ret tt.

(** Lines 127-130. *)
Definition show_observation (trace : value) : M unit :=
  observation <- eval (subscript trace (K "observation")) ;;
  display_observation_details observation.

(** [if name in trace: block]. *)
Definition when_in (name : string) (trace : value) (block : M unit) : M unit :=
  present <- eval (py_in name trace) ;;
  if present then block else ret tt.

(** Lines 76-130: the five blocks, in the order of the source. *)
Definition show_orchestration_trace (trace : value) : M unit :=
  when_in "modelInvocationInput" trace (show_model_input trace) ;;
  when_in "modelInvocationOutput" trace (show_model_output trace) ;;
  when_in "rationale" trace (show_rationale trace) ;;
  when_in "invocationInput" trace (show_invocation_input trace) ;;
  when_in "observation" trace (show_observation trace).

(** [handle_trace_event(event)]. *)
Definition handle_trace_event (event : value) : M unit :=
  inner <- eval (subscripts event [K "trace"; K "trace"]) ;;
  present <- eval (py_in "orchestrationTrace" inner) ;;
  if negb present then ret tt
  else
    trace <- eval (subscripts event [K "trace"; K "trace"; K "orchestrationTrace"]) ;;
    show_orchestration_trace trace.

(** [invoke_bedrock_agent(client, session_id, prompt)]. *)
Definition request_for (sid prompt : string) : request :=
  mkRequest (getenv env "AGENT_ID") (getenv env "AGENT_ALIAS_ID") sid true prompt.

Definition invoke_bedrock_agent (c : client_handle) (sid prompt : string) : M response :=
  fun w => (invoke_agent env c (request_for sid prompt), add_call (request_for sid prompt) w).

(** Lines 148-154, the body of the loop of [handle_agent_response]. *)
Definition handle_event (event : value) : M unit :=
  is_trace <- eval (py_in "trace" event) ;;
  (if is_trace then handle_trace_event event else ret tt) ;;
  is_chunk <- eval (py_in "chunk" event) ;;
  if is_chunk then
    answer <- eval (rbind (subscripts event [K "chunk"; K "bytes"]) decode) ;;
    draw (StWrite (VStr answer)) ;;
    messages_append (mkMessage "assistant" answer)
  else ret tt.

(** [handle_agent_response(response, messages)]. *)
Definition handle_agent_response (r : response) : M unit :=
  within (ChatMessage "assistant")
    (stream <- eval (match completion r with
                     | Some s => Ok s
                     | None => Raise TypeError
                     end) ;;
     for_each (events stream) handle_event ;;
     match failure stream with
     | Some e => raise e
     | None => ret tt
     end).

Definition dependency_message : string :=
  "【エラー】ナレッジベースのAurora DBがスリープしていたようです。数秒おいてから、ブラウザをリロードして再度お試しください🙏".

Definition throttling_message : string :=
  "【エラー】Bedrockのモデル負荷が高いようです。1分待ってから、ブラウザをリロードして再度お試しください🙏（改善しない場合は、モデルを変更するか[サービスクォータの引き上げ申請](https://aws.amazon.com/jp/blogs/news/generative-ai-amazon-bedrock-handling-quota-problems/)を実施ください）".

(** [show_error_popup(exeption)]. *)
Definition show_error_popup (exeption : string) : M unit :=
  error_message <-
    (if String.eqb exeption "dependencyFailedException" then ret dependency_message
     else if String.eqb exeption "throttlingException" then ret throttling_message
     else raise UnboundLocalError) ;;
  draw (StError error_message).

(** Lines 178-182, the [try] block of [main]. *)
Definition main_try (c : client_handle) (sid prompt : string) : M unit :=
  r <- invoke_bedrock_agent c sid prompt ;;
  handle_agent_response r.

(** Lines 184-190, the [except (EventStreamError, ClientError) as e] clause:
    an exception of another class is not caught. *)
Definition main_except (e : exn) : M unit :=
  match e with
  | EventStreamError str | ClientError str =>
      if contains "dependencyFailedException" str then
        show_error_popup "dependencyFailedException"
      else if contains "throttlingException" str then
        show_error_popup "throttlingException"
      else raise e
  | _ => raise e
  end.

(** [main()]; [prompt] is what [st.chat_input] returned, [None] when nothing
    was sent. *)
Definition main (prompt : option string) : M unit :=
  session <- initialize_session ;;
  let '(c, sid) := session in
  display_chat_history ;;
  match prompt with
  | Some p =>
      if truthy (VStr p) then
        messages_append (mkMessage "human" p) ;;
        within (ChatMessage "user") (draw (StMarkdown (VStr p))) ;;
        try_except (main_try c sid p) main_except
      else ret tt
  | None => ret tt
  end.

End Frontend.

(** ** Reading what was drawn *)

(** The kinds of unit the trace handler draws, as the specification names
    them. *)
Inductive ToolKind : Type := AgentCollaborator | KnowledgeBase | ActionGroup.

Inductive ObservationKind : Type := KnowledgeBaseResult | AgentCollaboratorResult.

Inductive TraceKind : Type :=
| ModelInput
| ModelOutput
| Rationale
| ToolInvocation (k : ToolKind)
| Observation (k : ObservationKind).

(** The kind of a drawn unit, read off the label of its expander. *)
Definition unit_kind (x : widget) : option TraceKind :=
  match x with
  | Expander [Lit l] _ _ =>
      if String.eqb l "🤔 思考中…" then Some ModelInput
      else if String.eqb l "💡 思考がまとまりました" then Some ModelOutput
      else if String.eqb l "✅ 次のアクションを決定しました" then Some Rationale
      else if String.eqb l "📖 ナレッジベースを検索中…" then
        Some (ToolInvocation KnowledgeBase)
      else if String.eqb l "💻 Lambdaを実行中…" then Some (ToolInvocation ActionGroup)
      else if String.eqb l "🔍 ナレッジベースから検索結果を取得しました" then
        Some (Observation KnowledgeBaseResult)
      else None
  | Expander [Lit a; Interp _; Lit b] _ _ =>
      if String.eqb a "🤖 サブエージェント「" then
        if String.eqb b "」を呼び出し中…" then Some (ToolInvocation AgentCollaborator)
        else if String.eqb b "」から回答を取得しました" then
          Some (Observation AgentCollaboratorResult)
        else None
      else None
  | _ => None
  end.

(** The tool an [invocationType] selects, and the result an observation
    [type] selects; any other value selects nothing. *)
Definition tool_kind (t : value) : option ToolKind :=
  if eq_str t "AGENT_COLLABORATOR" then Some AgentCollaborator
  else if eq_str t "KNOWLEDGE_BASE" then Some KnowledgeBase
  else if eq_str t "ACTION_GROUP" then Some ActionGroup
  else None.

Definition observation_kind (t : value) : option ObservationKind :=
  if eq_str t "KNOWLEDGE_BASE" then Some KnowledgeBaseResult
  else if eq_str t "AGENT_COLLABORATOR" then Some AgentCollaboratorResult
  else None.

(** The type an [invocationInput] or an [observation] sub-field declares. *)
Definition invocation_type (fields : list (string * value)) : option value :=
  match lookup "invocationInput" fields with
  | Some inv => match subscript inv (K "invocationType") with
                | Ok t => Some t
                | Raise _ => None
                end
  | None => None
  end.

Definition observation_type (fields : list (string * value)) : option value :=
  match lookup "observation" fields with
  | Some obs => match dict_get obs "type" VNone with
                | Ok t => Some t
                | Raise _ => None
                end
  | None => None
  end.

Definition one_if {A} (b : bool) (a : A) : list A := if b then [a] else [].

Definition one_of {A B} (o : option A) (f : A -> option B) : list B :=
  match o with
  | Some a => match f a with
              | Some b => [b]
              | None => []
              end
  | None => []
  end.

(** The units of an orchestration trace with the sub-fields [fields]: one per
    sub-field, in the order of the five blocks, none for a tool or an
    observation whose type selects nothing. *)
Definition rendered_kinds (fields : list (string * value)) : list TraceKind :=
  one_if (has_key "modelInvocationInput" fields) ModelInput ++
  one_if (has_key "modelInvocationOutput" fields) ModelOutput ++
  one_if (has_key "rationale" fields) Rationale ++
  one_of (invocation_type fields) (fun t => option_map ToolInvocation (tool_kind t)) ++
  one_of (observation_type fields) (fun t => option_map Observation (observation_kind t)).

Definition count_if (b : bool) : nat := if b then 1 else 0.

(** How many of the five sub-fields are present. *)
Definition present_subfields (fields : list (string * value)) : nat :=
  count_if (has_key "modelInvocationInput" fields) +
  count_if (has_key "modelInvocationOutput" fields) +
  count_if (has_key "rationale" fields) +
  count_if (has_key "invocationInput" fields) +
  count_if (has_key "observation" fields).

(** [true] when the sub-field [name] is present and its declared type, read
    by [typ] and tested by [known], selects no unit. *)
Definition selects_nothing {A} (name : string) (fields : list (string * value))
    (typ : option value) (known : value -> option A) : bool :=
  has_key name fields &&
  match typ with
  | Some t => match known t with
              | Some _ => false
              | None => true
              end
  | None => true
  end.

(** How many present sub-fields draw nothing. *)
Definition silent_subfields (fields : list (string * value)) : nat :=
  count_if (selects_nothing "invocationInput" fields (invocation_type fields) tool_kind) +
  count_if (selects_nothing "observation" fields (observation_type fields) observation_kind).

(** The event carries an answer chunk: ["chunk" in event]. *)
Definition is_chunk (event : value) : bool :=
  match py_in "chunk" event with
  | Ok b => b
  | Raise _ => false
  end.

(** [event["chunk"]["bytes"].decode()]. *)
Definition answer_of (event : value) : result string :=
  rbind (subscripts event [K "chunk"; K "bytes"]) decode.

(** [m] only draws: it leaves the world as it was but for the units [us] it
    adds to the current container, and [P] holds of its result and [us]. *)
Definition draws {A} (m : M A) (P : result A -> list widget -> Prop) : Prop :=
  forall w, exists us, snd (m w) = add_ui us w /\ P (fst (m w)) us.

(** The units [us] drawn so far are the first of the expected kinds [E], and
    all of them once the block has returned. *)
Definition fits {A} (E : list TraceKind) (r : result A) (us : list widget) : Prop :=
  exists rest,
    map Some E = map unit_kind us ++ map Some rest /\
    (forall a, r = Ok a -> rest = []).

(** The model output unit with the body [body]. *)
Definition thought (body : value) : widget :=
  Expander [Lit "💡 思考がまとまりました"] false [StWrite body].

(** The exception is of one of the two classes the [except] clause names. *)
Definition is_transport_error (e : exn) : bool :=
  match e with
  | EventStreamError _ | ClientError _ => true
  | _ => false
  end.

(** The optional sub-field [name] of [d] is missing or is a [dict]. *)
Definition dict_or_absent (name : string) (d : list (string * value)) : bool :=
  match lookup name d with
  | Some (VDict _) | None => true
  | Some _ => false
  end.

(** The optional outputs of an observation, when present, are [dict]s, as is
    the [output] of a collaborator result. *)
Definition observation_shaped (d : list (string * value)) : bool :=
  dict_or_absent "knowledgeBaseLookupOutput" d &&
  match lookup "agentCollaboratorInvocationOutput" d with
  | Some (VDict ac) => dict_or_absent "output" ac
  | Some _ => false
  | None => true
  end.

Definition anything {A} : result A -> list widget -> Prop := fun _ _ => True.

(** The bubbles [display_chat_history] draws for the history [l]. *)
Definition history_widgets (l : list message) : list widget :=
  map (fun m => ChatMessage (role m) [StMarkdown (VStr (text m))]) l.

(** The world in which the [try] block of [main] starts, for the prompt [p]:
    the session is set up, the page header and the history are drawn, the
    prompt is appended to the history and drawn in a bubble of its own. *)
Definition before_invocation (env : environment) (p : string) (w : world) : world :=
  mkWorld
    (ui w ++ [StTitle "わが家のAI技術顧問";
              StText "画面下部のチャットボックスから何でも質問してね！"] ++
     history_widgets (messages_or_new w) ++
     [ChatMessage "user" [StMarkdown (VStr p)]])
    (Some (client_or_new w)) (Some (session_id_or_new env w))
    (Some (messages_or_new w ++ [mkMessage "human" p]))
    (Some (last_prompt_or_new w)) (calls w).

(** The world [main] leaves when no prompt was sent. *)
Definition idle (env : environment) (w : world) : world :=
  mkWorld
    (ui w ++ [StTitle "わが家のAI技術顧問";
              StText "画面下部のチャットボックスから何でも質問してね！"] ++
     history_widgets (messages_or_new w))
    (Some (client_or_new w)) (Some (session_id_or_new env w))
    (Some (messages_or_new w)) (Some (last_prompt_or_new w)) (calls w).

(** The part of the world that belongs to the session and to the agent
    client: everything but what is drawn and the history. *)
Definition session_part (w : world) :
    option client_handle * option string * option (option string) * list request :=
  (client w, session_id w, last_prompt w, calls w).

(** [m] leaves [session_part] as it is, whatever its result. *)
Definition keeps {A} (m : M A) : Prop :=
  forall w, session_part (snd (m w)) = session_part w.

(** Streamlit runs the script again from the top for every interaction: the
    page starts empty and [st.session_state] is the one the last run left. *)
Definition rerun (w : world) : world := set_ui [] w.

Definition is_dict (v : value) : bool :=
  match v with
  | VDict _ => true
  | _ => false
  end.

Definition is_expander (x : widget) : bool :=
  match x with
  | Expander _ _ _ => true
  | _ => false
  end.

(** At most [n] units were drawn, all of them expanders. *)
Definition upto {A} (n : nat) : result A -> list widget -> Prop :=
  fun _ us => List.length us <= n /\ forallb is_expander us = true.


(** The first two elements of every page. *)
Definition page_header : list widget :=
  [StTitle "わが家のAI技術顧問";
   StText "画面下部のチャットボックスから何でも質問してね！"].

(** [texts] are the decoded answers of the chunk events of [evs], one for
    each, in order. *)
Definition answers (evs : list value) (texts : list string) : Prop :=
  Forall2 (fun event s => answer_of event = Ok s) (filter is_chunk evs) texts.

(** The loop over [stream], started in [w0], raised [e] right after it had
    handled the events [handled]: either these are all the events and the
    stream itself failed with [e], or the handling of the next event raised
    [e]. *)
Definition stopped_after (env : environment) (stream : event_stream) (w0 : world)
    (e : exn) (handled : list value) : Prop :=
  (handled = events stream /\ failure stream = Some e /\
   exists w1, for_each handled (handle_event env) w0 = (Ok tt, w1)) \/
  (exists event rest w1,
      events stream = handled ++ event :: rest /\
      for_each handled (handle_event env) w0 = (Ok tt, w1) /\
      fst (handle_event env event w1) = Raise e).

(** The world in which the loop over the stream starts in a run of [main]
    with the prompt [p]: the request is logged and the assistant bubble is
    open and empty. *)
Definition consumption_start (env : environment) (p : string) (w : world) : world :=
  set_ui [] (add_call (request_for env (session_id_or_new env w) p)
               (before_invocation env p w)).

(** ** Sample data *)

Module Sample.

(** A [json.loads] that knows the texts of [table] and rejects any other
    argument. *)
Fixpoint loads_from (table : list (string * value)) (x : value) : result value :=
  match table with
  | [] => Raise JSONDecodeError
  | (s, j) :: table' => if eq_str x s then Ok j else loads_from table' x
  end.

Definition agent (answer : request -> result response) : environment :=
  mkEnv (loads_from []) (fun _ => None) "0f8fad5b-d9cb-469f-a165-70867728950e"
    (fun _ => answer).

(** An environment whose agent answers with the stream [s]. *)
Definition streaming (s : event_stream) : environment :=
  agent (fun _ => Ok (mkResponse (Some s))).

(** An environment whose agent call raises [e]. *)
Definition failing (e : exn) : environment :=
  agent (fun _ => Raise e).

Definition quiet : environment := streaming (mkStream [] None).

(** A session that [initialize_session] has set up already. *)
Definition started (history : list message) : world :=
  mkWorld [] (Some (mkClient "bedrock-agent-runtime" "us-east-1"))
    (Some "session-1") (Some history) (Some None) [].

Definition fresh : world := mkWorld [] None None None None [].

Definition trace_event (fields : list (string * value)) : value :=
  VDict [("trace", VDict [("trace", VDict [("orchestrationTrace", VDict fields)])])].

Definition chunk_event (s : string) : value :=
  VDict [("chunk", VDict [("bytes", VBytes (list_byte_of_string s))])].

Definition rationale (s : string) : string * value :=
  ("rationale", VDict [("text", VStr s)]).

(** A trace whose five sub-fields are all present; the observation is the
    agent's final response, a type the handler has no branch for. *)
Definition full_fields : list (string * value) :=
  [("modelInvocationInput", VDict [("text", VStr "{}")]);
   ("modelInvocationOutput",
    VDict [("rawResponse", VDict [("content", VStr "not json")])]);
   rationale "Use tool X";
   ("invocationInput",
    VDict [("invocationType", VStr "KNOWLEDGE_BASE");
           ("knowledgeBaseLookupInput", VDict [("text", VStr "RAG")])]);
   ("observation",
    VDict [("type", VStr "FINISH");
           ("finalResponse", VDict [("text", VStr "done")])])].

(** A trace that only reports the final response. *)
Definition finish_fields : list (string * value) :=
  [("observation",
    VDict [("type", VStr "FINISH");
           ("finalResponse", VDict [("text", VStr "done")])])].

(** An event with both top-level fields. *)
Definition both_fields : list (string * value) :=
  [("chunk", VDict [("bytes", VBytes (list_byte_of_string "Hello"))]);
   ("trace", VDict [("trace", VDict [("orchestrationTrace",
                                       VDict [rationale "Use tool X"])])])].

Definition both_event : value := VDict both_fields.

(** What handling [both_event] leaves of a started session with no history. *)
Definition both_handled : world :=
  add_ui [Expander [Lit "✅ 次のアクションを決定しました"] true
            [StWrite (VStr "Use tool X")];
          StWrite (VStr "Hello")]
    (set_messages (Some [mkMessage "assistant" "Hello"]) (started [])).

Definition quote : string := String (ascii_of_nat 34) "".

(** The parts joined by double quotes: the text of a JSON document. *)
Fixpoint quoted (parts : list string) : string :=
  match parts with
  | [] => ""
  | [p] => p
  | p :: parts' => (p ++ quote ++ quoted parts')%string
  end.

(** The JSON text of a model response that holds one thought. *)
Definition thought_json : string :=
  quoted ["{"; "content"; ": [{"; "text"; ": "; "I will search"; "}]}"].

Definition thought_parsed : value :=
  VDict [("content", VList [VDict [("text", VStr "I will search")]])].

(** An environment whose [json.loads] parses [thought_json]. *)
Definition parsing : environment :=
  mkEnv (loads_from [(thought_json, thought_parsed)]) (fun _ => None)
    "0f8fad5b-d9cb-469f-a165-70867728950e"
    (fun _ _ => Ok (mkResponse (Some (mkStream [] None)))).

Definition model_output (payload : string) : value :=
  VDict [("modelInvocationOutput",
          VDict [("rawResponse", VDict [("content", VStr payload)])])].

(** A collaborator call that does not name the collaborator. *)
Definition unnamed_collaborator (input : value) : list (string * value) :=
  [("invocationInput",
    VDict [("invocationType", VStr "AGENT_COLLABORATOR");
           ("agentCollaboratorInvocationInput", VDict [("input", input)])])].

(** A collaborator result that does not name the collaborator. *)
Definition unnamed_result (output : value) : list (string * value) :=
  [("observation",
    VDict [("type", VStr "AGENT_COLLABORATOR");
           ("agentCollaboratorInvocationOutput", VDict [("output", output)])])].

(** An invocation input of the type [t] with none of the optional inputs. *)
Definition bare_invocation (t : string) : list (string * value) :=
  [("invocationInput", VDict [("invocationType", VStr t)])].

(** An observation of the type [t] with none of the optional outputs. *)
Definition bare_observation (t : string) : list (string * value) :=
  [("observation", VDict [("type", VStr t)])].

(** A text that holds both error tokens. *)
Definition both_tokens : string :=
  "An error occurred (dependencyFailedException) when calling the InvokeAgent operation: the model returned throttlingException".

Definition throttled_text : string :=
  "An error occurred (throttlingException) when calling the InvokeAgent operation".

(** A knowledge base observation whose lookup output is JSON [null]. *)
Definition null_lookup_output : list (string * value) :=
  [("type", VStr "KNOWLEDGE_BASE"); ("knowledgeBaseLookupOutput", VNone)].

(** An event whose trace field has no inner trace, beside a chunk. *)
Definition hollow_trace_fields : list (string * value) :=
  [("trace", VDict [("sessionId", VStr "session-1")]);
   ("chunk", VDict [("bytes", VBytes (list_byte_of_string "Hello"))])].

(** A trace of a kind other than the orchestration trace. *)
Definition guardrail_event : value :=
  VDict [("trace", VDict [("trace", VDict [("guardrailTrace", VDict [])])])].

(** A stream of two chunks around a knowledge base call that holds no
    lookup input. *)
Definition interrupted_stream : event_stream :=
  mkStream [chunk_event "Hel"; trace_event (bare_invocation "KNOWLEDGE_BASE");
            chunk_event "lo"] None.

(** A stream of two chunks around a chunk whose bytes are cut in the middle
    of a character. *)
Definition undecodable_stream : event_stream :=
  mkStream [chunk_event "Hel";
            VDict [("chunk", VDict [("bytes", VBytes [xe6; x80])])];
            chunk_event "lo"] None.

(** A stream of two chunks around a rationale. *)
Definition answer_stream : event_stream :=
  mkStream [chunk_event "Hel"; trace_event [rationale "Use tool X"];
            chunk_event "lo"] None.

(** A stream that fails with a throttling error after one chunk. *)
Definition throttled_stream : event_stream :=
  mkStream [chunk_event "Hel"] (Some (EventStreamError throttled_text)).

End Sample.

Example scenario_A :
  handle_event Sample.quiet (Sample.chunk_event "Hello") (Sample.started []) =
  (Ok tt, add_ui [StWrite (VStr "Hello")]
            (set_messages (Some [mkMessage "assistant" "Hello"]) (Sample.started []))).
Proof. reflexivity. Qed.

Example scenario_B :
  handle_trace_event Sample.quiet (Sample.trace_event [Sample.rationale "Use tool X"])
    Sample.fresh =
  (Ok tt, add_ui [Expander [Lit "✅ 次のアクションを決定しました"] true
                    [StWrite (VStr "Use tool X")]] Sample.fresh).
Proof. reflexivity. Qed.

Example scenario_C :
  handle_trace_event Sample.quiet
    (Sample.trace_event
       [("observation", VDict [("type", VStr "KNOWLEDGE_BASE");
                               ("knowledgeBaseLookupOutput",
                                VDict [("retrievedReferences", VList [])])])])
    Sample.fresh =
  (Ok tt, add_ui [Expander [Lit "🔍 ナレッジベースから検索結果を取得しました"] false
                    [StInfo "関連するドキュメントは見つかりませんでした。"]] Sample.fresh).
Proof. reflexivity. Qed.

Example decode_rejects_overlong :
  bytes_decode [xc0; x80] = Raise UnicodeDecodeError.
Proof. reflexivity. Qed.

Example decode_accepts_japanese :
  bytes_decode (list_byte_of_string "思考") = Ok "思考".
Proof. reflexivity. Qed.

Example first_character :
  subscript (VStr "思考") (I 0) = Ok (VStr "思") /\
  subscript (VStr "ab") (I (-1)) = Ok (VStr "b") /\
  subscript (VStr "") (I 0) = Raise IndexError.
Proof. repeat split. Qed.

(** ** Substring test *)

Lemma prefix_app (p s : string) :
  prefix p s = true <-> exists rest, s = (p ++ rest)%string.
Proof.
  revert s; induction p as [|c p IH]; intros s.
  - destruct s; simpl; (split; [intros _; eexists; reflexivity | reflexivity]).
  - destruct s as [|c' s]; simpl.
    + split; [discriminate | intros [rest H]; discriminate].
    + destruct (Ascii.ascii_dec c c') as [->|Hne].
      * rewrite IH; split; intros [rest H]; exists rest.
        -- now rewrite H.
        -- now injection H.
      * split; [discriminate | intros [rest H]; injection H; congruence].
Qed.

(** [contains sub s] holds exactly when [sub] occurs in [s]. *)
Lemma contains_spec (sub s : string) :
  contains sub s = true <-> exists before after, s = (before ++ sub ++ after)%string.
Proof.
  induction s as [|c s IH]; cbn [contains].
  - destruct (prefix sub "") eqn:Hp.
    + split; [intros _ | reflexivity].
      apply prefix_app in Hp as [rest H]; exists "", rest; exact H.
    + split; [discriminate |].
      intros ([|c b] & after & H); cbn [append] in H.
      * assert (prefix sub "" = true) by (apply prefix_app; eauto). congruence.
      * discriminate.
  - destruct (prefix sub (String c s)) eqn:Hp.
    + split; [intros _ | reflexivity].
      apply prefix_app in Hp as [rest H]; exists "", rest; exact H.
    + rewrite IH; split.
      * intros (b & a & ->); exists (String c b), a; reflexivity.
      * intros ([|c' b] & a & H); cbn [append] in H.
        -- assert (prefix sub (String c s) = true) by (apply prefix_app; eauto).
           congruence.
        -- injection H as _ ->; eauto.
Qed.

(** ** The world under drawing *)

Lemma add_ui_nil w : add_ui [] w = w.
Proof. destruct w; unfold add_ui, set_ui; simpl; now rewrite app_nil_r. Qed.

Lemma add_ui_add_ui us vs w : add_ui vs (add_ui us w) = add_ui (us ++ vs) w.
Proof. unfold add_ui, set_ui; simpl; now rewrite app_assoc. Qed.

(** ** Rules for [draws] *)

Section Draws.

Context {A : Type}.

Lemma draws_ret (a : A) (P : result A -> list widget -> Prop) :
  P (Ok a) [] -> draws (ret a) P.
Proof. intros H w; exists []; simpl; now rewrite add_ui_nil. Qed.

Lemma draws_eval (r : result A) (P : result A -> list widget -> Prop) :
  P r [] -> draws (eval r) P.
Proof. intros H w; exists []; simpl; now rewrite add_ui_nil. Qed.

Lemma draws_raise (e : exn) (P : result A -> list widget -> Prop) :
  P (Raise e) [] -> draws (raise e) P.
Proof. intros H w; exists []; simpl; now rewrite add_ui_nil. Qed.

Lemma draws_weaken (m : M A) (P Q : result A -> list widget -> Prop) :
  draws m P -> (forall r us, P r us -> Q r us) -> draws m Q.
Proof. intros Hm HPQ w; destruct (Hm w) as (us & Hw & HP); eauto. Qed.

Lemma draws_bind {B} (m : M B) (f : B -> M A)
    (Q : result B -> list widget -> Prop) (P : result A -> list widget -> Prop) :
  draws m Q ->
  (forall b us, Q (Ok b) us -> draws (f b) (fun r vs => P r (us ++ vs))) ->
  (forall e us, Q (Raise e) us -> P (Raise e) us) ->
  draws (bind m f) P.
Proof.
  intros Hm Hf He w; unfold bind.
  destruct (Hm w) as (us & Hw & HQ).
  destruct (m w) as [[b|e] w1]; simpl in *; subst w1.
  - destruct (Hf b us HQ (add_ui us w)) as (vs & Hw' & HP).
    exists (us ++ vs); now rewrite Hw', add_ui_add_ui.
  - exists us; auto.
Qed.

Lemma draws_try (body : M A) (handler : exn -> M A)
    (Q P : result A -> list widget -> Prop) :
  draws body Q ->
  (forall a us, Q (Ok a) us -> P (Ok a) us) ->
  (forall e us, Q (Raise e) us -> draws (handler e) (fun r vs => P r (us ++ vs))) ->
  draws (try_except body handler) P.
Proof.
  intros Hb Hok Hh w; unfold try_except.
  destruct (Hb w) as (us & Hw & HQ).
  destruct (body w) as [[a|e] w1]; simpl in *; subst w1.
  - exists us; auto.
  - destruct (Hh e us HQ (add_ui us w)) as (vs & Hw' & HP).
    exists (us ++ vs); now rewrite Hw', add_ui_add_ui.
Qed.

Lemma draws_within (c : list widget -> widget) (body : M A)
    (Q P : result A -> list widget -> Prop) :
  draws body Q ->
  (forall r us, Q r us -> P r [c us]) ->
  draws (within c body) P.
Proof.
  intros Hb HP w; unfold within.
  destruct (Hb (set_ui [] w)) as (us & Hw & HQ).
  destruct (body (set_ui [] w)) as [r w1]; simpl in *; subst w1.
  exists [c us]; split; [reflexivity | auto].
Qed.

End Draws.

Lemma draws_draw (x : widget) (P : result unit -> list widget -> Prop) :
  P (Ok tt) [x] -> draws (draw x) P.
Proof. intros H w; exists [x]; auto. Qed.

(** Proves that a block only draws, whatever its result. *)
Ltac only_draws :=
  repeat first
    [ apply draws_ret; exact Logic.I
    | apply draws_eval; exact Logic.I
    | apply draws_raise; exact Logic.I
    | apply draws_draw; exact Logic.I
    | match goal with
      | |- draws (bind _ _) _ =>
          eapply (draws_bind _ _ anything); [ | intros | intros; exact Logic.I ]
      | |- draws (try_except _ _) _ =>
          eapply (draws_try _ _ anything); [ | intros; exact Logic.I | intros ]
      | |- draws (within _ _) _ =>
          eapply (draws_within _ _ anything); [ | intros; exact Logic.I ]
      | |- draws (if ?b then _ else _) _ => destruct b
      | |- draws (match ?o with Some _ => _ | None => _ end) _ => destruct o
      end ].

(** ** The trace handler only draws *)

Lemma draws_eval_bind {A B} (r : result B) (f : B -> M A)
    (P : result A -> list widget -> Prop) :
  (forall b, r = Ok b -> draws (f b) P) ->
  (forall e, r = Raise e -> P (Raise e) []) ->
  draws (bind (eval r) f) P.
Proof.
  intros Hok Hraise; destruct r as [b|e].
  - intros w; exact (Hok b eq_refl w).
  - intros w; exists []; simpl; rewrite add_ui_nil; auto.
Qed.

Lemma display_observation_details_draws observation :
  draws (display_observation_details observation) anything.
Proof. unfold display_observation_details; only_draws. Qed.

Lemma show_orchestration_trace_draws env trace :
  draws (show_orchestration_trace env trace) anything.
Proof.
  unfold show_orchestration_trace, when_in, show_model_input, show_model_output,
    show_rationale, show_invocation_input, show_observation,
    display_observation_details.
  only_draws.
Qed.

Lemma handle_trace_event_draws env event :
  draws (handle_trace_event env event) anything.
Proof.
  unfold handle_trace_event.
  only_draws.
  apply show_orchestration_trace_draws.
Qed.

(** The units of the trace handler are added to the container; nothing else
    of the world changes. *)
Lemma handle_trace_event_frame env event w :
  exists units, snd (handle_trace_event env event w) = add_ui units w.
Proof.
  destruct (handle_trace_event_draws env event w) as (us & H & _); eauto.
Qed.

(** ** The units of an orchestration trace *)

Lemma fits_nothing {A} (r : result A) : fits [] r [].
Proof. exists []; auto. Qed.

Lemma fits_raise {A} E (e : exn) : @fits A E (Raise e) [].
Proof. exists E; split; [reflexivity | discriminate]. Qed.

Lemma fits_app {A} E1 E2 (m1 m2 : M A) :
  draws m1 (fits E1) -> draws m2 (fits E2) -> draws (m1 ;; m2) (fits (E1 ++ E2)).
Proof.
  intros H1 H2; eapply draws_bind; [exact H1 | |].
  - intros b us (rest & Hk & Hrest).
    rewrite (Hrest b eq_refl), app_nil_r in Hk.
    eapply draws_weaken; [exact H2 |].
    intros r vs (rest2 & Hk2 & Hrest2); exists rest2; split; [| exact Hrest2].
    now rewrite !map_app, Hk, Hk2, app_assoc.
  - intros e us (rest & Hk & _); exists (rest ++ E2); split; [| discriminate].
    now rewrite !map_app, Hk, app_assoc.
Qed.

(** A block that opens one expander draws one unit, whatever happens inside. *)
Lemma within_fits {A} k label expanded (body : M A) :
  unit_kind (Expander label expanded []) = Some k ->
  draws body anything ->
  draws (within (Expander label expanded) body) (fits [k]).
Proof.
  intros Hk Hb; eapply draws_within; [exact Hb |].
  intros r us _; exists []; split; [| reflexivity].
  simpl; rewrite <- Hk.
  destruct label as [|[l|v] [|[l2|v2] [|[l3|v3] [|]]]]; reflexivity.
Qed.

Lemma when_in_fits name fields k (block : M unit) :
  draws block (fits [k]) ->
  draws (when_in name (VDict fields) block) (fits (one_if (has_key name fields) k)).
Proof.
  intros Hb; unfold when_in; apply draws_eval_bind; [| discriminate].
  intros b [= <-]; destruct (has_key name fields); [exact Hb |].
  apply draws_ret, fits_nothing.
Qed.

Lemma show_invocation_input_fits fields :
  draws (when_in "invocationInput" (VDict fields)
           (show_invocation_input (VDict fields)))
    (fits (one_of (invocation_type fields)
             (fun t => option_map ToolInvocation (tool_kind t)))).
Proof.
  unfold when_in; apply draws_eval_bind; [| discriminate].
  intros b [= <-]; unfold has_key, invocation_type.
  destruct (lookup "invocationInput" fields) as [inv|] eqn:Hinv;
    [| apply draws_ret, fits_nothing].
  unfold show_invocation_input; apply draws_eval_bind.
  - intros t Ht; simpl in Ht; rewrite Hinv in Ht; simpl in Ht.
    destruct (subscript inv (K "invocationType")) as [t'|e]; [| discriminate].
    injection Ht as ->; unfold one_of, tool_kind.
    destruct (eq_str t "AGENT_COLLABORATOR").
    + apply draws_eval_bind; [| intros; apply fits_raise].
      intros name _; apply within_fits; [reflexivity | only_draws].
    + destruct (eq_str t "KNOWLEDGE_BASE");
        [apply within_fits; [reflexivity | only_draws] |].
      destruct (eq_str t "ACTION_GROUP");
        [apply within_fits; [reflexivity | only_draws] |].
      apply draws_ret, fits_nothing.
  - intros; apply fits_raise.
Qed.

Lemma show_observation_fits fields :
  draws (when_in "observation" (VDict fields) (show_observation (VDict fields)))
    (fits (one_of (observation_type fields)
             (fun t => option_map Observation (observation_kind t)))).
Proof.
  unfold when_in; apply draws_eval_bind; [| discriminate].
  intros b [= <-]; unfold has_key, observation_type.
  destruct (lookup "observation" fields) as [obs|] eqn:Hobs;
    [| apply draws_ret, fits_nothing].
  unfold show_observation; apply draws_eval_bind; [| intros; apply fits_raise].
  intros o Ho; simpl in Ho; rewrite Hobs in Ho; injection Ho as <-.
  unfold display_observation_details; apply draws_eval_bind.
  - intros t ->; unfold one_of, observation_kind.
    destruct (eq_str t "KNOWLEDGE_BASE");
      [apply within_fits; [reflexivity | only_draws] |].
    destruct (eq_str t "AGENT_COLLABORATOR"); [| apply draws_ret, fits_nothing].
    apply draws_eval_bind; [| intros; apply fits_raise].
    intros ac _; apply draws_eval_bind; [| intros; apply fits_raise].
    intros name _; apply within_fits; [reflexivity | only_draws].
  - intros e ->; apply fits_raise.
Qed.

(** The five blocks draw the units of [rendered_kinds], in that order, and
    stop early only when a block raises. *)
Lemma show_orchestration_trace_fits env fields :
  draws (show_orchestration_trace env (VDict fields)) (fits (rendered_kinds fields)).
Proof.
  unfold show_orchestration_trace, rendered_kinds.
  apply fits_app.
  { apply when_in_fits; unfold show_model_input.
    apply within_fits; [reflexivity | only_draws]. }
  apply fits_app.
  { apply when_in_fits; unfold show_model_output.
    apply draws_eval_bind; [| intros; apply fits_raise].
    intros; apply within_fits; [reflexivity | only_draws]. }
  apply fits_app.
  { apply when_in_fits; unfold show_rationale.
    apply within_fits; [reflexivity | only_draws]. }
  apply fits_app.
  - apply show_invocation_input_fits.
  - apply show_observation_fits.
Qed.

Lemma subscript_name_dict x name v :
  subscript x (K name) = Ok v -> exists d, x = VDict d /\ lookup name d = Some v.
Proof.
  destruct x; simpl; try discriminate.
  destruct (lookup name d) eqn:H; [| discriminate].
  intros [= ->]; eauto.
Qed.

(** On an event that carries an orchestration trace, the handler is the five
    blocks run on that trace. *)
Lemma handle_trace_event_blocks env event trace w :
  subscripts event [K "trace"; K "trace"; K "orchestrationTrace"] = Ok trace ->
  handle_trace_event env event w = show_orchestration_trace env trace w.
Proof.
  intros H; unfold handle_trace_event, bind, eval.
  rewrite H; simpl in H |- *.
  destruct (subscript event (K "trace")) as [y|]; [simpl in H |- * | discriminate].
  destruct (subscript y (K "trace")) as [inner|]; [simpl in H |- * | discriminate].
  destruct (subscript inner (K "orchestrationTrace")) as [t|] eqn:Ht; [| discriminate].
  apply subscript_name_dict in Ht as (d & -> & Hl).
  simpl; unfold has_key; now rewrite Hl.
Qed.

(** X8. A trace event with no orchestration trace in it (a trace of another
    kind) is left alone: the handler returns at once and draws nothing. *)
Lemma no_orchestration_trace env event d w :
  subscripts event [K "trace"; K "trace"] = Ok (VDict d) ->
  has_key "orchestrationTrace" d = false ->
  handle_trace_event env event w = (Ok tt, w).
Proof.
  intros H Hk; unfold handle_trace_event, bind, eval; rewrite H; cbn [py_in].
  now rewrite Hk.
Qed.

Lemma count_one_if {A} b (a : A) : List.length (one_if b a) = count_if b.
Proof. now destruct b. Qed.

Lemma rendered_count fields :
  List.length (rendered_kinds fields) + silent_subfields fields = present_subfields fields.
Proof.
  unfold rendered_kinds, silent_subfields, present_subfields, selects_nothing.
  rewrite !length_app, !count_one_if.
  unfold invocation_type, observation_type, has_key, one_of.
  destruct (lookup "invocationInput" fields) as [inv|];
    [destruct (subscript inv (K "invocationType")) as [t|];
     [destruct (tool_kind t) |] |];
  (destruct (lookup "observation" fields) as [obs|];
    [destruct (dict_get obs "type" VNone) as [t'|];
     [destruct (observation_kind t') |] |]);
  simpl; lia.
Qed.

(** C4 (as stated). A trace whose only sub-field is an observation of type
    FINISH has one present sub-field, and the handler returns without drawing
    a unit: the count of units is not the count of present sub-fields. *)
Lemma units_not_one_per_subfield :
  present_subfields Sample.finish_fields = 1 /\
  handle_trace_event Sample.quiet (Sample.trace_event Sample.finish_fields) Sample.fresh =
  (Ok tt, Sample.fresh).
Proof. split; reflexivity. Qed.

(** C4 (amended). On an event that carries an orchestration trace, the handler
    only adds units to the container.  The kinds of the units drawn are always
    the first of [rendered_kinds]: ModelInput, ModelOutput, Rationale,
    ToolInvocation, Observation, each for a present sub-field, with no unit
    for an invocation input or an observation whose type the handler has no
    branch for.  When the handler returns, all of them are drawn, so the
    number of units is the number of present sub-fields less the silent ones. *)
Theorem orchestration_units env event fields w :
  subscripts event [K "trace"; K "trace"; K "orchestrationTrace"] = Ok (VDict fields) ->
  exists units,
    snd (handle_trace_event env event w) = add_ui units w /\
    (exists rest,
        map Some (rendered_kinds fields) = map unit_kind units ++ map Some rest) /\
    (fst (handle_trace_event env event w) = Ok tt ->
     map unit_kind units = map Some (rendered_kinds fields) /\
     List.length units + silent_subfields fields = present_subfields fields).
Proof.
  intros H; rewrite (handle_trace_event_blocks env event _ w H).
  destruct (show_orchestration_trace_fits env fields w) as (us & Hw & rest & Hk & Hrest).
  exists us; split; [exact Hw |]; split; [eauto |].
  intros Hok; rewrite (Hrest tt Hok), app_nil_r in Hk; split; [now symmetry |].
  rewrite <- rendered_count; f_equal.
  rewrite <- (length_map unit_kind), <- Hk; apply length_map.
Qed.

Lemma orchestration_units_witness :
  exists units,
    snd (handle_trace_event Sample.quiet (Sample.trace_event Sample.full_fields)
           Sample.fresh) = add_ui units Sample.fresh /\
    (exists rest,
        map Some (rendered_kinds Sample.full_fields) =
        map unit_kind units ++ map Some rest) /\
    (fst (handle_trace_event Sample.quiet (Sample.trace_event Sample.full_fields)
            Sample.fresh) = Ok tt ->
     map unit_kind units = map Some (rendered_kinds Sample.full_fields) /\
     List.length units + silent_subfields Sample.full_fields =
     present_subfields Sample.full_fields).
Proof.
  apply (orchestration_units Sample.quiet (Sample.trace_event Sample.full_fields)
           Sample.full_fields Sample.fresh).
  reflexivity.
Defined.

Example full_trace_units :
  fst (handle_trace_event Sample.quiet (Sample.trace_event Sample.full_fields)
         Sample.fresh) = Ok tt /\
  map unit_kind
    (ui (snd (handle_trace_event Sample.quiet (Sample.trace_event Sample.full_fields)
                Sample.fresh))) =
  [Some ModelInput; Some ModelOutput; Some Rationale;
   Some (ToolInvocation KnowledgeBase)] /\
  present_subfields Sample.full_fields = 5.
Proof. repeat split. Qed.

(** ** One event of the stream *)

(** C1 (as stated). An event that carries both a chunk and a trace is not
    handled as an answer only: the trace is rendered first, then the answer
    is written and appended to the history. *)
Lemma both_fields_both_handled :
  handle_event Sample.quiet Sample.both_event (Sample.started []) =
  (Ok tt, Sample.both_handled) /\
  ui Sample.both_handled =
  [Expander [Lit "✅ 次のアクションを決定しました"] true [StWrite (VStr "Use tool X")];
   StWrite (VStr "Hello")].
Proof. split; reflexivity. Qed.

(** ** Running a computation step by step *)

Lemma bind_ok {A B} (m : M A) (f : A -> M B) w b w' :
  bind m f w = (Ok b, w') ->
  exists a w1, m w = (Ok a, w1) /\ f a w1 = (Ok b, w').
Proof.
  unfold bind; destruct (m w) as [[a|e] w1]; [eauto | discriminate].
Qed.

Lemma bind_raise {A B} (m : M A) (f : A -> M B) w e w' :
  bind m f w = (Raise e, w') ->
  m w = (Raise e, w') \/ exists a w1, m w = (Ok a, w1) /\ f a w1 = (Raise e, w').
Proof.
  unfold bind; destruct (m w) as [[a|e'] w1]; [eauto | intros [= -> ->]; auto].
Qed.

Lemma eval_run {A} (r r' : result A) w w' :
  eval r w = (r', w') -> r = r' /\ w' = w.
Proof. now intros [= -> ->]. Qed.

Lemma handle_trace_event_run env event w r w' :
  handle_trace_event env event w = (r, w') -> exists units, w' = add_ui units w.
Proof.
  intros H; destruct (handle_trace_event_frame env event w) as [units Hu].
  rewrite H in Hu; eauto.
Qed.

(** What [handle_event] does when it returns. *)
Lemma handle_event_ok env event w w' :
  handle_event env event w = (Ok tt, w') ->
  exists is_trace units,
    py_in "trace" event = Ok is_trace /\
    (if is_trace then handle_trace_event env event w = (Ok tt, add_ui units w)
     else units = []) /\
    if is_chunk event
    then exists s l,
        answer_of event = Ok s /\ messages w = Some l /\
        w' = set_messages (Some (l ++ [mkMessage "assistant" s]))
               (add_ui (units ++ [StWrite (VStr s)]) w)
    else w' = add_ui units w.
Proof.
  unfold handle_event, is_chunk; intros H.
  apply bind_ok in H as (is_trace & w0 & H0 & H).
  apply eval_run in H0 as [H0 ->].
  apply bind_ok in H as ([] & w1 & H1 & H).
  apply bind_ok in H as (chunk & w2 & H2 & H).
  apply eval_run in H2 as [H2 ->]; rewrite H2.
  assert (Hu : exists units, w1 = add_ui units w /\
            if is_trace then handle_trace_event env event w = (Ok tt, add_ui units w)
            else units = []).
  { destruct is_trace.
    - destruct (handle_trace_event_run _ _ _ _ _ H1) as [units ->]; eauto.
    - injection H1 as <-; exists []; now rewrite add_ui_nil. }
  destruct Hu as (units & -> & Hu); exists is_trace, units.
  split; [exact H0 |]; split; [exact Hu |].
  destruct chunk.
  - apply bind_ok in H as (s & w2 & Hs & H).
    apply eval_run in Hs as [Hs ->].
    apply bind_ok in H as ([] & w3 & Hd & H).
    injection Hd as <-; unfold messages_append in H; cbn in H.
    destruct (messages w) as [l|]; [| discriminate].
    injection H as <-; exists s, l; repeat split; [exact Hs |].
    unfold set_messages, add_ui, set_ui; cbn; now rewrite <- app_assoc.
  - now injection H as <-.
Qed.

(** C1 (amended). An event is tested for a top-level trace field first and,
    on its own, for a top-level chunk field next.  When its handling returns,
    what was drawn is the units of the trace handler (none without a trace
    field) followed by the answer (none without a chunk field), and the
    history gains the answer as one assistant entry exactly when the chunk
    field is there. *)
Theorem trace_then_chunk env d w w' :
  handle_event env (VDict d) w = (Ok tt, w') ->
  exists units answers,
    ui w' = ui w ++ units ++ answers /\
    (if has_key "trace" d
     then handle_trace_event env (VDict d) w = (Ok tt, add_ui units w)
     else units = []) /\
    (if has_key "chunk" d
     then exists s, answer_of (VDict d) = Ok s /\
                    answers = [StWrite (VStr s)] /\
                    messages w' =
                    option_map (fun l => l ++ [mkMessage "assistant" s]) (messages w)
     else answers = [] /\ messages w' = messages w).
Proof.
  intros H; apply handle_event_ok in H as (is_trace & units & Ht & Hu & Hc).
  injection Ht as <-; unfold is_chunk in Hc; cbn [py_in] in Hc.
  exists units; destruct (has_key "chunk" d).
  - destruct Hc as (s & l & Hs & Hm & ->); exists [StWrite (VStr s)].
    split; [reflexivity |]; split; [exact Hu |].
    exists s; rewrite Hm; auto.
  - subst w'; exists []; cbn; rewrite app_nil_r; auto.
Qed.

Lemma trace_then_chunk_witness :
  exists units answers,
    ui Sample.both_handled = ui (Sample.started []) ++ units ++ answers /\
    handle_trace_event Sample.quiet Sample.both_event (Sample.started []) =
    (Ok tt, add_ui units (Sample.started [])) /\
    (exists s, answer_of Sample.both_event = Ok s /\
               answers = [StWrite (VStr s)] /\
               messages Sample.both_handled =
               option_map (fun l => l ++ [mkMessage "assistant" s])
                 (messages (Sample.started []))).
Proof.
  apply (trace_then_chunk Sample.quiet Sample.both_fields (Sample.started [])
           Sample.both_handled).
  reflexivity.
Defined.

(** ** The history under a stream *)

(** Whatever an event does, the history either is left as it was or, when
    the event carries a chunk and its handling returns, gains the answer. *)
Lemma handle_event_transcript env event w r w' :
  handle_event env event w = (r, w') ->
  match r with
  | Ok _ =>
      if is_chunk event
      then exists s l,
          answer_of event = Ok s /\ messages w = Some l /\
          messages w' = Some (l ++ [mkMessage "assistant" s])
      else messages w' = messages w
  | Raise _ => messages w' = messages w
  end.
Proof.
  destruct r as [[]|e]; intros H.
  - apply handle_event_ok in H as (is_trace & units & _ & _ & Hc).
    destruct (is_chunk event).
    + destruct Hc as (s & l & Hs & Hm & ->); eauto.
    + now subst w'.
  - unfold handle_event in H.
    apply bind_raise in H as [H | (is_trace & w0 & H0 & H)];
      [now apply eval_run in H as [_ ->] |].
    apply eval_run in H0 as [_ ->].
    assert (Hframe : forall r1 w1,
              (if is_trace then handle_trace_event env event else ret tt) w = (r1, w1) ->
              messages w1 = messages w).
    { intros r1 w1 H1; destruct is_trace.
      - now destruct (handle_trace_event_run _ _ _ _ _ H1) as [units ->].
      - now injection H1 as _ <-. }
    apply bind_raise in H as [H | (u & w1 & H1 & H)]; [exact (Hframe _ _ H) |].
    rewrite <- (Hframe _ _ H1).
    apply bind_raise in H as [H | (chunk & w2 & H2 & H)];
      [now apply eval_run in H as [_ ->] |].
    apply eval_run in H2 as [_ ->].
    destruct chunk; [| discriminate].
    apply bind_raise in H as [H | (s & w2 & H2 & H)];
      [now apply eval_run in H as [_ ->] |].
    apply eval_run in H2 as [_ ->].
    apply bind_raise in H as [H | (u' & w2 & H2 & H)]; [discriminate |].
    injection H2 as _ <-; unfold messages_append in H; cbn in H.
    destruct (messages w1) eqn:Hm; [discriminate | injection H as _ <-; exact Hm].
Qed.


Lemma option_map_app_nil {A B} (f : B -> A) (o : option (list A)) :
  option_map (fun l => l ++ map f []) o = o.
Proof. destruct o; cbn; [now rewrite app_nil_r | reflexivity]. Qed.

Lemma handle_agent_response_run env stream w :
  handle_agent_response env (mkResponse (Some stream)) w =
  match for_each (events stream) (handle_event env) (set_ui [] w) with
  | (Ok _, w1) =>
      (match failure stream with
       | Some e => Raise e
       | None => Ok tt
       end, set_ui (ui w ++ [ChatMessage "assistant" (ui w1)]) w1)
  | (Raise e, w1) => (Raise e, set_ui (ui w ++ [ChatMessage "assistant" (ui w1)]) w1)
  end.
Proof.
  unfold handle_agent_response, within; cbn [completion].
  match goal with
  | |- context [bind (eval (Ok stream)) ?f (set_ui [] w)] =>
      change (bind (eval (Ok stream)) f (set_ui [] w))
        with (bind (for_each (events stream) (handle_event env))
                (fun _ => match failure stream with
                          | Some e => raise e
                          | None => ret tt
                          end) (set_ui [] w))
  end.
  unfold bind.
  destruct (for_each (events stream) (handle_event env) (set_ui [] w))
    as [[[]|e] w1]; [destruct (failure stream) |]; reflexivity.
Qed.

(** What the loop over the events has done when it stops: on return, every
    event was handled and the history has gained the answers of the chunk
    events; on a raise, the events before the one that raised were handled
    and the history has gained the answers of the chunk events among them. *)
Lemma for_each_outcome env evs : forall w r w',
  for_each evs (handle_event env) w = (r, w') ->
  match r with
  | Ok _ =>
      exists texts,
        answers evs texts /\
        messages w' =
        option_map (fun l => l ++ map (mkMessage "assistant") texts) (messages w)
  | Raise e =>
      exists handled event rest w1 texts,
        evs = handled ++ event :: rest /\
        for_each handled (handle_event env) w = (Ok tt, w1) /\
        handle_event env event w1 = (Raise e, w') /\
        answers handled texts /\
        messages w' =
        option_map (fun l => l ++ map (mkMessage "assistant") texts) (messages w)
  end.
Proof.
  induction evs as [|event evs IH]; intros w r w' H.
  - injection H as <- <-; exists []; split; [constructor |].
    now rewrite option_map_app_nil.
  - cbn [for_each] in H; unfold bind in H.
    destruct (handle_event env event w) as [[[]|e] w1] eqn:He.
    + pose proof (handle_event_transcript _ _ _ _ _ He) as Ht; cbn in Ht.
      assert (Hcons : forall evs' texts' w2,
        answers evs' texts' ->
        messages w2 =
        option_map (fun l => l ++ map (mkMessage "assistant") texts') (messages w1) ->
        exists texts,
          answers (event :: evs') texts /\
          messages w2 =
          option_map (fun l => l ++ map (mkMessage "assistant") texts) (messages w)).
      { intros evs' texts' w2 Ha Hm; unfold answers in *; cbn [filter].
        destruct (is_chunk event).
        - destruct Ht as (s & l & Hs & Hl & Hl1); exists (s :: texts').
          split; [now constructor |].
          rewrite Hm, Hl1, Hl; cbn; now rewrite <- app_assoc.
        - exists texts'; rewrite <- Ht; auto. }
      specialize (IH _ _ _ H); destruct r as [[]|e].
      * destruct IH as (texts' & Ha & Hm); eauto.
      * destruct IH as (handled & ev & rest & w2 & texts' & -> & Hrun & Hev & Ha & Hm).
        destruct (Hcons _ _ _ Ha Hm) as (texts & Ha' & Hm').
        exists (event :: handled), ev, rest, w2, texts; repeat split; auto.
        cbn [for_each]; unfold bind; now rewrite He.
    + injection H as <- <-; exists [], event, evs, w, []; repeat split; auto.
      * constructor.
      * pose proof (handle_event_transcript _ _ _ _ _ He) as Ht; cbn in Ht.
        now rewrite Ht, option_map_app_nil.
Qed.

(** What the consumption of a stream has done when it stops. *)
Lemma handle_agent_response_outcome env stream w r w' :
  handle_agent_response env (mkResponse (Some stream)) w = (r, w') ->
  match r with
  | Ok _ =>
      failure stream = None /\
      exists texts,
        answers (events stream) texts /\
        messages w' =
        option_map (fun l => l ++ map (mkMessage "assistant") texts) (messages w)
  | Raise e =>
      exists handled texts,
        stopped_after env stream (set_ui [] w) e handled /\
        answers handled texts /\
        messages w' =
        option_map (fun l => l ++ map (mkMessage "assistant") texts) (messages w)
  end.
Proof.
  rewrite handle_agent_response_run.
  destruct (for_each (events stream) (handle_event env) (set_ui [] w))
    as [[[]|e] w1] eqn:Hrun; pose proof Hrun as Hloop;
    apply for_each_outcome in Hrun.
  - destruct Hrun as (texts & Ha & Hm).
    destruct (failure stream) as [e|] eqn:Hf; intros [= <- <-].
    + exists (events stream), texts; split; [left; eauto | auto].
    + split; [reflexivity | eauto].
  - destruct Hrun as (handled & event & rest & w2 & texts & Hev & Hh & He & Ha & Hm).
    intros [= <- <-]; exists handled, texts; split; [| auto].
    right; exists event, rest, w2; split; [exact Hev |]; split; [exact Hh |].
    now rewrite He.
Qed.

(** C5 (as stated). Two streams with chunk events that add fewer entries than
    they have chunks.  In the first a knowledge base call without its lookup
    input stands between two chunks; in the second, a chunk whose bytes do not
    decode: the handler raises there, and the history has gained the first
    answer only. *)
Lemma chunks_after_a_raise_are_lost :
  List.length (filter is_chunk (events Sample.interrupted_stream)) = 2 /\
  handle_agent_response Sample.quiet (mkResponse (Some Sample.interrupted_stream))
    (Sample.started []) =
  (Raise (KeyError (K "knowledgeBaseLookupInput")),
   add_ui [ChatMessage "assistant"
             [StWrite (VStr "Hel");
              Expander [Lit "📖 ナレッジベースを検索中…"] false []]]
     (Sample.started [mkMessage "assistant" "Hel"])) /\
  List.length (filter is_chunk (events Sample.undecodable_stream)) = 3 /\
  handle_agent_response Sample.quiet (mkResponse (Some Sample.undecodable_stream))
    (Sample.started []) =
  (Raise UnicodeDecodeError,
   add_ui [ChatMessage "assistant" [StWrite (VStr "Hel")]]
     (Sample.started [mkMessage "assistant" "Hel"])).
Proof. repeat split. Qed.

(** C5 (amended). When the consumption of a stream returns, the stream has
    not failed, every event was handled, and the history has gained exactly
    the decoded answers of its chunk events, one assistant entry per chunk
    event, in stream order: k entries for k chunk events.  When it raises, it
    stopped right after the events [handled], at the next event or at the
    failure of the stream, and the history has gained exactly the answers of
    the chunk events among [handled], in order. *)
Theorem chunks_appended_in_order env stream w r w' :
  handle_agent_response env (mkResponse (Some stream)) w = (r, w') ->
  match r with
  | Ok _ =>
      failure stream = None /\
      exists texts,
        answers (events stream) texts /\
        List.length texts = List.length (filter is_chunk (events stream)) /\
        messages w' =
        option_map (fun l => l ++ map (mkMessage "assistant") texts) (messages w)
  | Raise e =>
      exists handled texts,
        stopped_after env stream (set_ui [] w) e handled /\
        answers handled texts /\
        List.length texts = List.length (filter is_chunk handled) /\
        messages w' =
        option_map (fun l => l ++ map (mkMessage "assistant") texts) (messages w)
  end.
Proof.
  intros H; apply handle_agent_response_outcome in H; destruct r as [[]|e].
  - destruct H as (Hf & texts & Ha & Hm); split; [exact Hf |].
    exists texts; repeat split; auto.
    symmetry; exact (Forall2_length Ha).
  - destruct H as (handled & texts & Hs & Ha & Hm).
    exists handled, texts; repeat split; auto.
    symmetry; exact (Forall2_length Ha).
Qed.

Lemma chunks_appended_in_order_witness :
  failure Sample.answer_stream = None /\
  exists texts,
    answers (events Sample.answer_stream) texts /\
    List.length texts = List.length (filter is_chunk (events Sample.answer_stream)) /\
    messages
      (add_ui [ChatMessage "assistant"
                 [StWrite (VStr "Hel");
                  Expander [Lit "✅ 次のアクションを決定しました"] true
                    [StWrite (VStr "Use tool X")];
                  StWrite (VStr "lo")]]
         (Sample.started [mkMessage "human" "hi"; mkMessage "assistant" "Hel";
                          mkMessage "assistant" "lo"])) =
    option_map (fun l => l ++ map (mkMessage "assistant") texts)
      (messages (Sample.started [mkMessage "human" "hi"])).
Proof.
  exact (chunks_appended_in_order Sample.quiet Sample.answer_stream
           (Sample.started [mkMessage "human" "hi"]) (Ok tt) _ eq_refl).
Defined.

(** ** [main] *)

Lemma history_drawn l : forall w,
  for_each l (fun message =>
    within (ChatMessage (role message)) (draw (StMarkdown (VStr (text message))))) w =
  (Ok tt, add_ui (history_widgets l) w).
Proof.
  induction l as [|m l IH]; intros w; cbn [for_each history_widgets map].
  - unfold ret; now rewrite add_ui_nil.
  - unfold bind, within, draw at 1; cbn; rewrite IH.
    unfold history_widgets, add_ui, set_ui; cbn; now rewrite <- app_assoc.
Qed.

Lemma display_chat_history_run l w :
  messages w = Some l ->
  display_chat_history w =
  (Ok tt, add_ui ([StTitle "わが家のAI技術顧問";
                   StText "画面下部のチャットボックスから何でも質問してね！"] ++
                  history_widgets l) w).
Proof.
  intros Hm; unfold display_chat_history, bind, draw at 1 2; cbn.
  rewrite Hm, history_drawn.
  unfold add_ui, set_ui; cbn; now rewrite <- !app_assoc.
Qed.

(** With no prompt, [main] sets the session up and draws the page. *)
Lemma main_idle env prompt w :
  prompt = None \/ prompt = Some "" ->
  main env prompt w = (Ok tt, idle env w).
Proof.
  intros Hp; unfold main, bind at 1, initialize_session.
  unfold bind at 1; rewrite (display_chat_history_run (messages_or_new w));
    [| reflexivity].
  destruct Hp as [-> | ->]; reflexivity.
Qed.

(** With a prompt, [main] runs its [try] block in [before_invocation]. *)
Lemma main_prompt env p w :
  truthy (VStr p) = true ->
  main env (Some p) w =
  try_except (main_try env (client_or_new w) (session_id_or_new env w) p) main_except
    (before_invocation env p w).
Proof.
  intros Hp; unfold main, bind at 1, initialize_session.
  unfold bind at 1; rewrite (display_chat_history_run (messages_or_new w));
    [| reflexivity].
  rewrite Hp; unfold bind at 1, messages_append; cbn [messages add_ui set_ui].
  unfold bind at 1, within, draw; cbn.
  unfold before_invocation; now rewrite <- !app_assoc.
Qed.

(** C10. With no prompt, or an empty one, [main] returns after it has set the
    session up and drawn the page: no request is sent to the agent, the
    history and the session id are the ones of the session (the initial ones
    when the session is new), and nothing is appended. *)
Theorem empty_prompt_changes_nothing env prompt w :
  prompt = None \/ prompt = Some "" ->
  exists w',
    main env prompt w = (Ok tt, w') /\
    calls w' = calls w /\
    messages w' = Some (messages_or_new w) /\
    session_id w' = Some (session_id_or_new env w) /\
    (forall l, messages w = Some l -> messages w' = Some l) /\
    (forall s, session_id w = Some s -> session_id w' = Some s).
Proof.
  intros Hp; exists (idle env w); split; [exact (main_idle env prompt w Hp) |].
  repeat split; cbn.
  - intros l Hl; unfold messages_or_new; now rewrite Hl.
  - intros s Hs; unfold session_id_or_new; now rewrite Hs.
Qed.

Lemma empty_prompt_changes_nothing_witness :
  exists w',
    main Sample.quiet (Some "") (Sample.started [mkMessage "human" "hi"]) =
    (Ok tt, w') /\
    calls w' = calls (Sample.started [mkMessage "human" "hi"]) /\
    messages w' = Some (messages_or_new (Sample.started [mkMessage "human" "hi"])) /\
    session_id w' =
    Some (session_id_or_new Sample.quiet (Sample.started [mkMessage "human" "hi"])) /\
    (forall l, messages (Sample.started [mkMessage "human" "hi"]) = Some l ->
               messages w' = Some l) /\
    (forall s, session_id (Sample.started [mkMessage "human" "hi"]) = Some s ->
               session_id w' = Some s).
Proof.
  apply (empty_prompt_changes_nothing Sample.quiet (Some "")
           (Sample.started [mkMessage "human" "hi"])).
  right; reflexivity.
Defined.


(** The [except] clause leaves the history as it is. *)
Lemma main_except_transcript e w :
  messages (snd (main_except e w)) = messages w.
Proof.
  destruct e; cbn [main_except]; try reflexivity;
    (destruct (contains "dependencyFailedException" str); [reflexivity |]);
    (destruct (contains "throttlingException" str); reflexivity).
Qed.

(** C8 (as stated). A stream that yields one chunk and then fails with a
    throttling error: the error is classified ([main] returns with the
    throttling message drawn), and the history holds the prompt and the
    assistant entry of the chunk. *)
Lemma classified_error_after_chunk :
  fst (main (Sample.streaming Sample.throttled_stream) (Some "hi")
         (Sample.started [])) = Ok tt /\
  last (ui (snd (main (Sample.streaming Sample.throttled_stream) (Some "hi")
                   (Sample.started [])))) (StText "") =
  StError throttling_message /\
  messages (snd (main (Sample.streaming Sample.throttled_stream) (Some "hi")
                   (Sample.started []))) =
  Some [mkMessage "human" "hi"; mkMessage "assistant" "Hel"].
Proof. repeat split. Qed.

(** C8 (amended). When the [try] block of [main] raises, whatever the
    exception and whether the [except] clause turns it into a message or
    raises it again, nothing is taken back from the history: it is the one
    before, the prompt as a human entry, and the assistant entries of the
    answer chunks handled before the failure, in order.  When it is the call
    to the agent that raised, or the response has no stream, there is no
    assistant entry. *)
Theorem failed_run_keeps_transcript env p w e w2 :
  truthy (VStr p) = true ->
  main_try env (client_or_new w) (session_id_or_new env w) p
    (before_invocation env p w) = (Raise e, w2) ->
  exists texts,
    messages (snd (main env (Some p) w)) =
    Some (messages_or_new w ++
          mkMessage "human" p :: map (mkMessage "assistant") texts) /\
    match invoke_agent env (client_or_new w)
            (request_for env (session_id_or_new env w) p) with
    | Raise _ => texts = []
    | Ok r =>
        match completion r with
        | Some stream =>
            exists handled,
              stopped_after env stream (consumption_start env p w) e handled /\
              answers handled texts
        | None => texts = []
        end
    end.
Proof.
  intros Hp Htry; rewrite (main_prompt env p w Hp).
  unfold try_except; rewrite Htry, main_except_transcript.
  unfold main_try, bind, invoke_bedrock_agent in Htry.
  destruct (invoke_agent env (client_or_new w)
              (request_for env (session_id_or_new env w) p)) as [[[stream|]]|e'].
  - match type of Htry with
    | context [handle_agent_response env ?r ?w1] =>
        destruct (handle_agent_response env r w1) as [[[]|e''] w3] eqn:Hrun;
        [discriminate |]
    end.
    injection Htry as -> ->.
    apply handle_agent_response_outcome in Hrun
      as (handled & texts & Hs & Ha & Hm).
    exists texts; split; [| cbn [completion]; eauto].
    rewrite Hm; cbn; now rewrite <- app_assoc.
  - injection Htry as _ <-; exists []; split; reflexivity.
  - injection Htry as _ <-; exists []; split; reflexivity.
Qed.

Lemma failed_run_keeps_transcript_witness :
  exists texts,
    messages (snd (main (Sample.streaming Sample.throttled_stream) (Some "hi")
                     (Sample.started [mkMessage "human" "hello"]))) =
    Some (messages_or_new (Sample.started [mkMessage "human" "hello"]) ++
          mkMessage "human" "hi" :: map (mkMessage "assistant") texts) /\
    exists handled,
      stopped_after (Sample.streaming Sample.throttled_stream) Sample.throttled_stream
        (consumption_start (Sample.streaming Sample.throttled_stream) "hi"
           (Sample.started [mkMessage "human" "hello"]))
        (EventStreamError Sample.throttled_text) handled /\
      answers handled texts.
Proof.
  exact (failed_run_keeps_transcript (Sample.streaming Sample.throttled_stream) "hi"
           (Sample.started [mkMessage "human" "hello"])
           (EventStreamError Sample.throttled_text) _ eq_refl eq_refl).
Defined.

Example failed_call_adds_no_answer :
  messages (snd (main (Sample.failing (ClientError Sample.throttled_text))
                   (Some "hi") (Sample.started [mkMessage "human" "hello"]))) =
  Some [mkMessage "human" "hello"; mkMessage "human" "hi"].
Proof. reflexivity. Qed.

(** C6 (as stated). A text that holds the throttling token does not always
    give the throttling message: a client error whose text holds both tokens
    gives the dependency message, and an exception of another class whose text
    holds the throttling token is raised to the caller. *)
Lemma throttling_token_not_enough :
  contains "throttlingException" Sample.both_tokens = true /\
  fst (main (Sample.failing (ClientError Sample.both_tokens)) (Some "hi")
         (Sample.started [])) = Ok tt /\
  last (ui (snd (main (Sample.failing (ClientError Sample.both_tokens)) (Some "hi")
                   (Sample.started [])))) (StText "") =
  StError dependency_message /\
  contains "throttlingException" Sample.throttled_text = true /\
  fst (main (Sample.failing (OtherException "RuntimeError" Sample.throttled_text))
         (Some "hi") (Sample.started [])) =
  Raise (OtherException "RuntimeError" Sample.throttled_text).
Proof. repeat split. Qed.

(** C6 (amended). When the [try] block of [main] raises an exception of one
    of the two transport classes, its text is searched first for the
    dependency token, then for the throttling token: the first one found
    selects the message drawn with [st.error], and [main] returns; with
    neither token the exception is raised again, unchanged.  An exception of
    any other class is raised to the caller whatever its text. *)
Theorem invocation_error_classified env p w e w2 :
  truthy (VStr p) = true ->
  main_try env (client_or_new w) (session_id_or_new env w) p
    (before_invocation env p w) = (Raise e, w2) ->
  main env (Some p) w =
  match e with
  | EventStreamError str | ClientError str =>
      if contains "dependencyFailedException" str then
        (Ok tt, add_ui [StError dependency_message] w2)
      else if contains "throttlingException" str then
        (Ok tt, add_ui [StError throttling_message] w2)
      else (Raise e, w2)
  | _ => (Raise e, w2)
  end.
Proof.
  intros Hp Htry; rewrite (main_prompt env p w Hp).
  unfold try_except; rewrite Htry.
  destruct e; cbn [main_except]; try reflexivity;
    (destruct (contains "dependencyFailedException" str); [reflexivity |]);
    (destruct (contains "throttlingException" str); reflexivity).
Qed.

Lemma invocation_error_classified_witness :
  main (Sample.failing (ClientError Sample.throttled_text)) (Some "hi")
    (Sample.started []) =
  (Ok tt,
   add_ui [StError throttling_message]
     (add_call (request_for (Sample.failing (ClientError Sample.throttled_text))
                  "session-1" "hi")
        (before_invocation (Sample.failing (ClientError Sample.throttled_text)) "hi"
           (Sample.started [])))).
Proof.
  apply (invocation_error_classified
           (Sample.failing (ClientError Sample.throttled_text)) "hi"
           (Sample.started []) (ClientError Sample.throttled_text)); reflexivity.
Defined.

(** C9. When the [try] block of [main] raises an exception that is of neither
    transport class, [main] raises it to the caller as it is, in the world the
    block left: its text is not looked at and no error message is drawn, also
    when the text holds one of the two tokens. *)
Theorem other_errors_propagate env p w e w2 :
  truthy (VStr p) = true ->
  is_transport_error e = false ->
  main_try env (client_or_new w) (session_id_or_new env w) p
    (before_invocation env p w) = (Raise e, w2) ->
  main env (Some p) w = (Raise e, w2).
Proof.
  intros Hp He Htry; rewrite (main_prompt env p w Hp).
  unfold try_except; rewrite Htry.
  destruct e; try reflexivity; discriminate.
Qed.

Lemma other_errors_propagate_witness :
  main (Sample.failing (OtherException "RuntimeError" Sample.throttled_text))
    (Some "hi") (Sample.started []) =
  (Raise (OtherException "RuntimeError" Sample.throttled_text),
   add_call (request_for
               (Sample.failing (OtherException "RuntimeError" Sample.throttled_text))
               "session-1" "hi")
     (before_invocation
        (Sample.failing (OtherException "RuntimeError" Sample.throttled_text)) "hi"
        (Sample.started []))).
Proof.
  apply (other_errors_propagate
           (Sample.failing (OtherException "RuntimeError" Sample.throttled_text)) "hi"
           (Sample.started [])); reflexivity.
Defined.

Example two_chunks_two_entries :
  handle_agent_response Sample.quiet
    (mkResponse (Some (mkStream [Sample.chunk_event "Hel";
                                 Sample.trace_event [Sample.rationale "Use tool X"];
                                 Sample.chunk_event "lo"] None)))
    (Sample.started [mkMessage "human" "hi"]) =
  (Ok tt,
   add_ui [ChatMessage "assistant"
             [StWrite (VStr "Hel");
              Expander [Lit "✅ 次のアクションを決定しました"] true
                [StWrite (VStr "Use tool X")];
              StWrite (VStr "lo")]]
     (Sample.started [mkMessage "human" "hi"; mkMessage "assistant" "Hel";
                      mkMessage "assistant" "lo"])).
Proof. reflexivity. Qed.

(** An exception the stream raises while it is consumed reaches the same
    [except] clause. *)
Example stream_error_classified :
  fst (main (Sample.streaming
               (mkStream [Sample.chunk_event "Hel"]
                  (Some (EventStreamError Sample.throttled_text))))
         (Some "hi") (Sample.started [])) = Ok tt /\
  messages (snd (main (Sample.streaming
                         (mkStream [Sample.chunk_event "Hel"]
                            (Some (EventStreamError Sample.throttled_text))))
                   (Some "hi") (Sample.started []))) =
  Some [mkMessage "human" "hi"; mkMessage "assistant" "Hel"].
Proof. split; reflexivity. Qed.

(** ** The model output block *)

(** C7. The body of the model output unit.  With [payload] the content of the
    raw response: when [json.loads(payload)["content"][0]["text"]] is there and
    is true in the Python sense (for a text: not empty), it is the body; when
    it is there and is not (the empty text), the body is the first content
    element itself; when [payload] does not parse, the body is [payload]. *)
Theorem model_output_body env trace payload w :
  subscripts trace [K "modelInvocationOutput"; K "rawResponse"; K "content"] =
  Ok payload ->
  (forall parsed first thinking,
      json_loads env payload = Ok parsed ->
      subscripts parsed [K "content"; I 0] = Ok first ->
      subscript first (K "text") = Ok thinking ->
      show_model_output env trace w =
      (Ok tt, add_ui [thought (if truthy thinking then thinking else first)] w)) /\
  (forall parsed first s,
      json_loads env payload = Ok parsed ->
      subscripts parsed [K "content"; I 0] = Ok first ->
      subscript first (K "text") = Ok (VStr s) ->
      show_model_output env trace w =
      (Ok tt, add_ui [thought (if String.eqb s "" then first else VStr s)] w)) /\
  (forall e,
      json_loads env payload = Raise e ->
      show_model_output env trace w = (Ok tt, add_ui [thought payload] w)).
Proof.
  intros Hp.
  assert (Hgen : forall parsed first thinking,
      json_loads env payload = Ok parsed ->
      subscripts parsed [K "content"; I 0] = Ok first ->
      subscript first (K "text") = Ok thinking ->
      show_model_output env trace w =
      (Ok tt, add_ui [thought (if truthy thinking then thinking else first)] w)).
  { intros parsed first thinking Hj Hf Ht.
    unfold show_model_output, bind, eval, within, try_except; rewrite Hp, Hj.
    cbn [rbind subscripts] in Hf |- *.
    destruct (subscript parsed (K "content")) as [c|]; [| discriminate].
    cbn [rbind] in Hf |- *.
    destruct (subscript c (I 0)) as [f|]; [| discriminate].
    cbn [rbind] in Hf |- *; injection Hf as ->; rewrite Ht; cbn [rbind].
    destruct (truthy thinking); reflexivity. }
  split; [exact Hgen |]; split.
  - intros parsed first s Hj Hf Ht; rewrite (Hgen _ _ _ Hj Hf Ht); cbn [truthy].
    now destruct (String.eqb s "").
  - intros e Hj.
    unfold show_model_output, bind, eval, within, try_except; rewrite Hp, Hj.
    reflexivity.
Qed.

Lemma model_output_body_witness :
  show_model_output Sample.parsing (Sample.model_output Sample.thought_json)
    Sample.fresh =
  (Ok tt, add_ui [thought (VStr "I will search")] Sample.fresh) /\
  show_model_output Sample.parsing (Sample.model_output "thinking...") Sample.fresh =
  (Ok tt, add_ui [thought (VStr "thinking...")] Sample.fresh).
Proof.
  split.
  - exact (proj1 (model_output_body Sample.parsing
                    (Sample.model_output Sample.thought_json)
                    (VStr Sample.thought_json) Sample.fresh eq_refl)
             Sample.thought_parsed
             (VDict [("text", VStr "I will search")]) (VStr "I will search")
             eq_refl eq_refl eq_refl).
  - exact (proj2 (proj2 (model_output_body Sample.parsing
                           (Sample.model_output "thinking...")
                           (VStr "thinking...") Sample.fresh eq_refl))
             JSONDecodeError eq_refl).
Defined.

Example empty_thought_shows_element :
  show_model_output
    (mkEnv (Sample.loads_from
              [("empty", VDict [("content", VList [VDict [("text", VStr "")]])])])
       (fun _ => None) "" (fun _ _ => Raise TypeError))
    (Sample.model_output "empty") Sample.fresh =
  (Ok tt, add_ui [thought (VDict [("text", VStr "")])] Sample.fresh).
Proof. reflexivity. Qed.

(** ** Optional sub-fields that are missing *)

(** C3. A collaborator call whose input does not name the collaborator: the
    handler raises [KeyError] before it draws the unit, whatever the input
    text is.  The observation block, on a collaborator result that does not
    name the collaborator, draws its unit with the placeholder name. *)
Theorem unnamed_collaborator_raises env input s w :
  handle_trace_event env (Sample.trace_event (Sample.unnamed_collaborator input)) w =
  (Raise (KeyError (K "agentCollaboratorName")), w) /\
  handle_trace_event env
    (Sample.trace_event (Sample.unnamed_result (VDict [("text", VStr s)]))) w =
  (Ok tt,
   add_ui [Expander [Lit "🤖 サブエージェント「"; Interp (VStr "不明なエージェント");
                     Lit "」から回答を取得しました"] true
             [if String.eqb s "" then
                StInfo "サブエージェントからのテキスト出力はありませんでした。"
              else StMarkdown (VStr s)]] w).
Proof.
  split; [reflexivity |].
  unfold handle_trace_event, show_orchestration_trace, when_in, show_observation,
    display_observation_details, bind, eval, within; cbn.
  now destruct (String.eqb s "").
Qed.

(** C2. An invocation input that declares its type and holds none of the
    optional inputs: for each of the three types the handler raises
    [KeyError] on the input it reads, for the last two after it has drawn an
    empty unit.  An observation that declares its type and holds none of the
    optional outputs is drawn with the fallback text. *)
Theorem missing_optional_input_raises env w :
  handle_trace_event env
    (Sample.trace_event (Sample.bare_invocation "AGENT_COLLABORATOR")) w =
  (Raise (KeyError (K "agentCollaboratorInvocationInput")), w) /\
  handle_trace_event env
    (Sample.trace_event (Sample.bare_invocation "KNOWLEDGE_BASE")) w =
  (Raise (KeyError (K "knowledgeBaseLookupInput")),
   add_ui [Expander [Lit "📖 ナレッジベースを検索中…"] false []] w) /\
  handle_trace_event env
    (Sample.trace_event (Sample.bare_invocation "ACTION_GROUP")) w =
  (Raise (KeyError (K "actionGroupInvocationInput")),
   add_ui [Expander [Lit "💻 Lambdaを実行中…"] false []] w) /\
  handle_trace_event env
    (Sample.trace_event (Sample.bare_observation "KNOWLEDGE_BASE")) w =
  (Ok tt,
   add_ui [Expander [Lit "🔍 ナレッジベースから検索結果を取得しました"] false
             [StInfo "関連するドキュメントは見つかりませんでした。"]] w) /\
  handle_trace_event env
    (Sample.trace_event (Sample.bare_observation "AGENT_COLLABORATOR")) w =
  (Ok tt,
   add_ui [Expander [Lit "🤖 サブエージェント「"; Interp (VStr "不明なエージェント");
                     Lit "」から回答を取得しました"] true
             [StInfo "サブエージェントからのテキスト出力はありませんでした。"]] w).
Proof. repeat split. Qed.


(** X10. The observation block degrades: on an observation of any type whose
    optional outputs are missing, in any combination, it returns. *)
Lemma observation_never_raises d w :
  observation_shaped d = true ->
  fst (display_observation_details (VDict d) w) = Ok tt.
Proof.
  unfold observation_shaped, dict_or_absent, display_observation_details, bind, eval,
    within; cbn [dict_get].
  intros H; apply andb_prop in H as [Hkb Hac].
  set (t := match lookup "type" d with Some v => Ok v | None => Ok VNone end).
  assert (Ht : exists v, t = Ok v) by (subst t; destruct (lookup "type" d); eauto).
  destruct Ht as [v ->].
  destruct (eq_str v "KNOWLEDGE_BASE").
  { destruct (lookup "knowledgeBaseLookupOutput" d) as [[| | | | | |kb]|];
      try discriminate; cbn [dict_get].
    - destruct (lookup "retrievedReferences" kb) as [r|];
        [destruct (truthy r) |]; reflexivity.
    - reflexivity. }
  destruct (eq_str v "AGENT_COLLABORATOR"); [| reflexivity].
  destruct (lookup "agentCollaboratorInvocationOutput" d) as [[| | | | | |ac]|];
    try discriminate; cbn [dict_get].
  - assert (Hn : exists n, match lookup "agentCollaboratorName" ac with
                           | Some v => Ok v
                           | None => Ok (VStr "不明なエージェント")
                           end = Ok n)
      by (destruct (lookup "agentCollaboratorName" ac); eauto).
    destruct Hn as [n ->].
    destruct (lookup "output" ac) as [[| | | | | |o]|]; try discriminate;
      cbn [dict_get].
    + destruct (lookup "text" o) as [x|]; [destruct (truthy x) |]; reflexivity.
    + reflexivity.
  - reflexivity.
Qed.

(** ** What the session keeps *)

Lemma session_part_set_ui u w : session_part (set_ui u w) = session_part w.
Proof. reflexivity. Qed.

Lemma keeps_ret {A} (a : A) : keeps (ret a).
Proof. intros w; reflexivity. Qed.

Lemma keeps_raise {A} (e : exn) : keeps (@raise A e).
Proof. intros w; reflexivity. Qed.

Lemma keeps_eval {A} (r : result A) : keeps (eval r).
Proof. intros w; reflexivity. Qed.

Lemma keeps_draw x : keeps (draw x).
Proof. intros w; reflexivity. Qed.

Lemma keeps_messages_append m : keeps (messages_append m).
Proof. intros w; unfold messages_append; now destruct (messages w). Qed.

Lemma keeps_bind {A B} (m : M A) (f : A -> M B) :
  keeps m -> (forall a, keeps (f a)) -> keeps (bind m f).
Proof.
  intros Hm Hf w; unfold bind; specialize (Hm w).
  destruct (m w) as [[a|e] w1]; cbn [snd] in Hm |- *; [| exact Hm].
  now rewrite Hf.
Qed.

Lemma keeps_try {A} (body : M A) (handler : exn -> M A) :
  keeps body -> (forall e, keeps (handler e)) -> keeps (try_except body handler).
Proof.
  intros Hb Hh w; unfold try_except; specialize (Hb w).
  destruct (body w) as [[a|e] w1]; cbn [snd] in Hb |- *; [exact Hb |].
  now rewrite Hh.
Qed.

Lemma keeps_within {A} c (body : M A) : keeps body -> keeps (within c body).
Proof.
  intros Hb w; unfold within; specialize (Hb (set_ui [] w)).
  destruct (body (set_ui [] w)) as [r w1]; cbn [snd] in Hb |- *.
  now rewrite session_part_set_ui, Hb.
Qed.

Lemma keeps_for_each {A} (xs : list A) (body : A -> M unit) :
  (forall x, keeps (body x)) -> keeps (for_each xs body).
Proof.
  intros Hb; induction xs as [|x xs IH]; cbn [for_each].
  - apply keeps_ret.
  - apply keeps_bind; auto.
Qed.

Lemma draws_keeps {A} (m : M A) P : draws m P -> keeps m.
Proof. intros Hm w; destruct (Hm w) as (us & -> & _); reflexivity. Qed.

Lemma keeps_handle_event env event : keeps (handle_event env event).
Proof.
  unfold handle_event.
  apply keeps_bind; [apply keeps_eval | intros is_trace].
  apply keeps_bind.
  { destruct is_trace; [| apply keeps_ret].
    exact (draws_keeps _ _ (handle_trace_event_draws env event)). }
  intros _; apply keeps_bind; [apply keeps_eval | intros [|]; [| apply keeps_ret]].
  apply keeps_bind; [apply keeps_eval | intros answer].
  apply keeps_bind; [apply keeps_draw | intros _; apply keeps_messages_append].
Qed.

Lemma keeps_handle_agent_response env r : keeps (handle_agent_response env r).
Proof.
  unfold handle_agent_response.
  apply keeps_within, keeps_bind; [apply keeps_eval | intros stream].
  apply keeps_bind; [apply keeps_for_each, keeps_handle_event | intros _].
  destruct (failure stream); [apply keeps_raise | apply keeps_ret].
Qed.

Lemma keeps_main_except e : keeps (main_except e).
Proof.
  intros w; destruct e; cbn [main_except]; try reflexivity;
    (destruct (contains "dependencyFailedException" str); [reflexivity |]);
    (destruct (contains "throttlingException" str); reflexivity).
Qed.

(** X5. Consuming a response adds exactly one element to the page, the
    assistant bubble that holds whatever was drawn meanwhile, also when the
    consumption raises; the client, the session id and the log of requests are
    left as they were. *)
Theorem response_in_one_bubble env r w :
  exists children,
    ui (snd (handle_agent_response env r w)) =
    ui w ++ [ChatMessage "assistant" children] /\
    session_part (snd (handle_agent_response env r w)) = session_part w.
Proof.
  pose proof (keeps_handle_agent_response env r w) as Hk.
  unfold handle_agent_response, within in Hk |- *.
  match goal with
  | |- context [match ?run with pair _ _ => _ end] => destruct run as [res w1]
  end.
  exists (ui w1); split; [reflexivity | exact Hk].
Qed.

(** X1. [initialize_session] is idempotent: a second call, even with another
    source of fresh ids, returns the client and the session id of the first
    and changes nothing; and a session id that is set already is the one
    returned. *)
Theorem initialize_session_idempotent env env' w :
  exists c sid,
    initialize_session env w = (Ok (c, sid), snd (initialize_session env w)) /\
    initialize_session env' (snd (initialize_session env w)) =
    (Ok (c, sid), snd (initialize_session env w)) /\
    (forall s, session_id w = Some s -> sid = s) /\
    (session_id w = None -> sid = uuid4 env).
Proof.
  exists (client_or_new w), (session_id_or_new env w); repeat split.
  - intros s Hs; unfold session_id_or_new; now rewrite Hs.
  - intros Hs; unfold session_id_or_new; now rewrite Hs.
Qed.

(** After [main], whatever the prompt and the outcome: the keys of the
    session are set, and the log of requests has gained the request of this
    run, if there was a prompt. *)
Lemma main_session env prompt w :
  session_part (snd (main env prompt w)) =
  (Some (client_or_new w), Some (session_id_or_new env w),
   Some (last_prompt_or_new w),
   calls w ++ match prompt with
              | Some p => if truthy (VStr p)
                          then [request_for env (session_id_or_new env w) p]
                          else []
              | None => []
              end).
Proof.
  assert (Hidle : prompt = None \/ prompt = Some "" ->
                  session_part (snd (main env prompt w)) =
                  (Some (client_or_new w), Some (session_id_or_new env w),
                   Some (last_prompt_or_new w), calls w ++ [])).
  { intros H; rewrite (main_idle env prompt w H); unfold session_part; cbn.
    now rewrite app_nil_r. }
  destruct prompt as [p|]; [| auto].
  destruct (truthy (VStr p)) eqn:Hp.
  - rewrite (main_prompt env p w Hp).
    unfold try_except, main_try, bind, invoke_bedrock_agent.
    destruct (invoke_agent env (client_or_new w)
                (request_for env (session_id_or_new env w) p)) as [r|e].
    + match goal with
      | |- context [handle_agent_response env r ?w1] =>
          pose proof (keeps_handle_agent_response env r w1) as Hk;
          destruct (handle_agent_response env r w1) as [[[]|e] w2]
      end; cbn [snd] in Hk |- *; [| rewrite keeps_main_except]; exact Hk.
    + rewrite keeps_main_except; reflexivity.
  - cbn in Hp; apply negb_false_iff, String.eqb_eq in Hp; subst p; auto.
Qed.

(** X2. A run of [main] with a prompt sends exactly one request to the agent,
    whatever happens afterwards: it carries the session id of the session,
    the prompt, the agent ids as the environment has them (also when they are
    not set) and the trace flag. *)
Theorem one_request_per_prompt env p w :
  truthy (VStr p) = true ->
  calls (snd (main env (Some p) w)) =
  calls w ++ [mkRequest (getenv env "AGENT_ID") (getenv env "AGENT_ALIAS_ID")
                (session_id_or_new env w) true p].
Proof.
  intros Hp; pose proof (main_session env (Some p) w) as H.
  cbv beta iota in H; rewrite Hp in H; unfold session_part in H; now injection H.
Qed.

Lemma one_request_per_prompt_witness :
  calls (snd (main (Sample.failing (ClientError Sample.throttled_text)) (Some "hi")
                Sample.fresh)) =
  [mkRequest None None "0f8fad5b-d9cb-469f-a165-70867728950e" true "hi"].
Proof.
  exact (one_request_per_prompt (Sample.failing (ClientError Sample.throttled_text))
           "hi" Sample.fresh eq_refl).
Defined.

(** X3. The session id is chosen once.  Two runs of [main] with a prompt each,
    the second in the session the first has left, send their requests with
    the same session id: the one the session had, or the fresh one of the
    first run.  What the second run would get as a fresh id is not used. *)
Theorem session_continuity env1 env2 p1 p2 w :
  truthy (VStr p1) = true ->
  truthy (VStr p2) = true ->
  calls (snd (main env2 (Some p2) (rerun (snd (main env1 (Some p1) w))))) =
  calls w ++ [request_for env1 (session_id_or_new env1 w) p1;
              request_for env2 (session_id_or_new env1 w) p2] /\
  session_id (snd (main env2 (Some p2) (rerun (snd (main env1 (Some p1) w))))) =
  Some (session_id_or_new env1 w).
Proof.
  intros H1 H2.
  pose proof (main_session env1 (Some p1) w) as Hs1.
  cbv beta iota in Hs1; rewrite H1 in Hs1.
  pose proof (main_session env2 (Some p2) (rerun (snd (main env1 (Some p1) w))))
    as Hs2.
  cbv beta iota in Hs2; rewrite H2 in Hs2.
  unfold session_part in Hs1, Hs2.
  assert (Hi1 : session_id (snd (main env1 (Some p1) w)) =
                Some (session_id_or_new env1 w)) by (injection Hs1; auto).
  assert (Hk1 : calls (snd (main env1 (Some p1) w)) =
                calls w ++ [request_for env1 (session_id_or_new env1 w) p1])
    by (injection Hs1; auto).
  assert (Hsid : session_id_or_new env2 (rerun (snd (main env1 (Some p1) w))) =
                 session_id_or_new env1 w).
  { unfold session_id_or_new at 1, rerun; cbn [session_id set_ui]; now rewrite Hi1. }
  rewrite Hsid in Hs2; split; [| injection Hs2; auto].
  assert (Hk2 : calls (snd (main env2 (Some p2)
                              (rerun (snd (main env1 (Some p1) w))))) =
                calls (rerun (snd (main env1 (Some p1) w))) ++
                [request_for env2 (session_id_or_new env1 w) p2])
    by (injection Hs2; auto).
  rewrite Hk2; unfold rerun; cbn [calls set_ui]; rewrite Hk1, <- app_assoc.
  reflexivity.
Qed.

Lemma session_continuity_witness :
  calls (snd (main Sample.quiet (Some "again")
                (rerun (snd (main (Sample.failing (ClientError Sample.throttled_text))
                               (Some "hi") Sample.fresh))))) =
  [mkRequest None None "0f8fad5b-d9cb-469f-a165-70867728950e" true "hi";
   mkRequest None None "0f8fad5b-d9cb-469f-a165-70867728950e" true "again"].
Proof.
  exact (proj1 (session_continuity (Sample.failing (ClientError Sample.throttled_text))
                  Sample.quiet "hi" "again" Sample.fresh eq_refl eq_refl)).
Defined.




Example replay_of_two_chunks :
  ui (snd (main Sample.quiet None
             (rerun (snd (main (Sample.streaming
                                  (mkStream [Sample.chunk_event "Hel";
                                             Sample.chunk_event "lo"] None))
                            (Some "hi") Sample.fresh))))) =
  page_header ++
  [ChatMessage "human" [StMarkdown (VStr "hi")];
   ChatMessage "assistant" [StMarkdown (VStr "Hel")];
   ChatMessage "assistant" [StMarkdown (VStr "lo")]].
Proof. reflexivity. Qed.

(** ** A bound on the units of a trace event *)

Lemma upto_nothing {A} (r : result A) n : @upto A n r [].
Proof. split; [cbn; lia | reflexivity]. Qed.

Lemma upto_mono {A} (m : M A) a b :
  a <= b -> draws m (upto a) -> draws m (upto b).
Proof.
  intros Hab Hm; eapply draws_weaken; [exact Hm |].
  intros r us [Hl Hf]; split; [lia | exact Hf].
Qed.

Lemma upto_bind {A B} (m : M B) (f : B -> M A) a b :
  draws m (upto a) -> (forall x, draws (f x) (upto b)) ->
  draws (bind m f) (upto (a + b)).
Proof.
  intros Hm Hf; eapply draws_bind; [exact Hm | |].
  - intros x us [Hl Hu]; eapply draws_weaken; [exact (Hf x) |].
    intros r vs [Hl' Hv]; split.
    + rewrite length_app; lia.
    + now rewrite forallb_app, Hu, Hv.
  - intros e us [Hl Hu]; split; [lia | exact Hu].
Qed.

(** An expander block is one unit, whatever happens inside. *)
Lemma upto_within {A} label expanded (body : M A) :
  draws body anything -> draws (within (Expander label expanded) body) (upto 1).
Proof.
  intros Hb; eapply draws_within; [exact Hb |].
  intros r us _; split; [cbn; lia | reflexivity].
Qed.

Lemma upto_eval_bind {A B} (r : result B) (f : B -> M A) n :
  (forall x, draws (f x) (upto n)) -> draws (bind (eval r) f) (upto n).
Proof.
  intros Hf; apply draws_eval_bind; [intros x _; apply Hf |].
  intros; apply upto_nothing.
Qed.

Lemma upto_when_in name trace (block : M unit) :
  draws block (upto 1) -> draws (when_in name trace block) (upto 1).
Proof.
  intros Hb; unfold when_in; apply upto_eval_bind.
  intros [|]; [exact Hb | apply draws_ret, upto_nothing].
Qed.

Lemma show_orchestration_trace_upto env trace :
  draws (show_orchestration_trace env trace) (upto 5).
Proof.
  unfold show_orchestration_trace.
  apply (upto_bind _ _ 1 4).
  { apply upto_when_in; unfold show_model_input.
    apply upto_within; only_draws. }
  intros _; apply (upto_bind _ _ 1 3).
  { apply upto_when_in; unfold show_model_output.
    apply upto_eval_bind; intros; apply upto_within; only_draws. }
  intros _; apply (upto_bind _ _ 1 2).
  { apply upto_when_in; unfold show_rationale.
    apply upto_within; only_draws. }
  intros _; apply (upto_bind _ _ 1 1).
  { apply upto_when_in; unfold show_invocation_input.
    apply upto_eval_bind; intros t.
    destruct (eq_str t "AGENT_COLLABORATOR");
      [apply upto_eval_bind; intros; apply upto_within; only_draws |].
    destruct (eq_str t "KNOWLEDGE_BASE"); [apply upto_within; only_draws |].
    destruct (eq_str t "ACTION_GROUP"); [apply upto_within; only_draws |].
    apply draws_ret, upto_nothing. }
  intros _; apply upto_when_in; unfold show_observation.
  apply upto_eval_bind; intros obs; unfold display_observation_details.
  apply upto_eval_bind; intros t.
  destruct (eq_str t "KNOWLEDGE_BASE"); [apply upto_within; only_draws |].
  destruct (eq_str t "AGENT_COLLABORATOR"); [| apply draws_ret, upto_nothing].
  apply upto_eval_bind; intros ac; apply upto_eval_bind; intros name.
  apply upto_within; only_draws.
Qed.

(** X6. Whatever the event is, also one that is not shaped as a trace, and
    whether the handler returns or raises: [handle_trace_event] adds at most
    five elements to the page, all of them expanders, and changes nothing
    else in the world. *)
Theorem trace_event_at_most_five_units env event w :
  exists units,
    snd (handle_trace_event env event w) = add_ui units w /\
    List.length units <= 5 /\
    forallb is_expander units = true.
Proof.
  assert (H : draws (handle_trace_event env event) (upto 5)).
  { unfold handle_trace_event.
    apply upto_eval_bind; intros inner; apply upto_eval_bind; intros present.
    destruct (negb present); [apply draws_ret, upto_nothing |].
    apply upto_eval_bind; intros trace; apply show_orchestration_trace_upto. }
  destruct (H w) as (units & Hw & Hl & Hf); eauto.
Qed.

(** ** The model input block *)

(** X7. The body of the model input unit.  When the text of the model input
    is there, the block returns: it draws one collapsed expander that holds
    the parsed text in a JSON viewer when [json.loads] accepts it, and the
    text as it is when [json.loads] raises, whatever it raises. *)
Theorem model_input_body env trace input w :
  subscripts trace [K "modelInvocationInput"; K "text"] = Ok input ->
  show_model_input env trace w =
  (Ok tt,
   add_ui [Expander [Lit "🤔 思考中…"] false
             [match json_loads env input with
              | Ok parsed => StJson parsed
              | Raise _ => StWrite input
              end]] w).
Proof.
  intros H; unfold show_model_input, within, bind, eval, try_except; rewrite H.
  destruct (json_loads env input); reflexivity.
Qed.

Lemma model_input_body_witness :
  show_model_input Sample.parsing
    (VDict [("modelInvocationInput", VDict [("text", VStr Sample.thought_json)])])
    Sample.fresh =
  (Ok tt,
   add_ui [Expander [Lit "🤔 思考中…"] false [StJson Sample.thought_parsed]]
     Sample.fresh).
Proof.
  exact (model_input_body Sample.parsing
           (VDict [("modelInvocationInput", VDict [("text", VStr Sample.thought_json)])])
           (VStr Sample.thought_json) Sample.fresh eq_refl).
Defined.

Lemma no_orchestration_trace_witness :
  handle_trace_event Sample.quiet Sample.guardrail_event Sample.fresh =
  (Ok tt, Sample.fresh).
Proof.
  exact (no_orchestration_trace Sample.quiet Sample.guardrail_event
           [("guardrailTrace", VDict [])] Sample.fresh eq_refl eq_refl).
Defined.

(** X9. An event whose trace field is a [dict] without the inner trace makes
    the trace handler raise [KeyError] on that key with nothing drawn; since
    the trace is handled before the chunk, a chunk in the same event is
    neither written nor appended to the history. *)
Theorem hollow_trace_raises env d t w :
  lookup "trace" d = Some (VDict t) ->
  lookup "trace" t = None ->
  handle_trace_event env (VDict d) w = (Raise (KeyError (K "trace")), w) /\
  handle_event env (VDict d) w = (Raise (KeyError (K "trace")), w).
Proof.
  intros Hd Ht.
  assert (H : handle_trace_event env (VDict d) w = (Raise (KeyError (K "trace")), w)).
  { unfold handle_trace_event, bind, eval; cbn; rewrite Hd; cbn; now rewrite Ht. }
  split; [exact H |].
  unfold handle_event, bind, eval; cbn [py_in]; unfold has_key; rewrite Hd.
  now rewrite H.
Qed.

Lemma hollow_trace_raises_witness :
  handle_trace_event Sample.quiet (VDict Sample.hollow_trace_fields)
    (Sample.started []) =
  (Raise (KeyError (K "trace")), Sample.started []) /\
  handle_event Sample.quiet (VDict Sample.hollow_trace_fields) (Sample.started []) =
  (Raise (KeyError (K "trace")), Sample.started []).
Proof.
  exact (hollow_trace_raises Sample.quiet Sample.hollow_trace_fields
           [("sessionId", VStr "session-1")] (Sample.started []) eq_refl eq_refl).
Defined.

(** ** The observation block on odd shapes *)

Lemma observation_never_raises_witness :
  fst (display_observation_details
         (VDict [("type", VStr "AGENT_COLLABORATOR");
                 ("agentCollaboratorInvocationOutput", VDict [])])
         Sample.fresh) = Ok tt.
Proof.
  exact (observation_never_raises
           [("type", VStr "AGENT_COLLABORATOR");
            ("agentCollaboratorInvocationOutput", VDict [])]
           Sample.fresh eq_refl).
Defined.

(** X11. The default of [.get] stands in for a missing key only.  An
    observation that is not a [dict] raises [AttributeError] with nothing
    drawn; a knowledge base observation whose lookup output is there but is
    not a [dict] (a JSON [null], say) raises [AttributeError] inside its
    expander, which stays on the page empty. *)
Theorem present_non_dict_output_raises d v w :
  lookup "type" d = Some (VStr "KNOWLEDGE_BASE") ->
  lookup "knowledgeBaseLookupOutput" d = Some v ->
  is_dict v = false ->
  display_observation_details (VDict d) w =
  (Raise AttributeError,
   add_ui [Expander [Lit "🔍 ナレッジベースから検索結果を取得しました"] false []] w) /\
  display_observation_details v w = (Raise AttributeError, w).
Proof.
  intros Ht Hv Hd; split.
  - unfold display_observation_details, bind, eval, within; cbn [dict_get].
    rewrite Ht; cbn [eq_str String.eqb]; cbn; rewrite Hv.
    destruct v; try discriminate; reflexivity.
  - destruct v; try discriminate; reflexivity.
Qed.

Lemma present_non_dict_output_raises_witness :
  display_observation_details (VDict Sample.null_lookup_output) Sample.fresh =
  (Raise AttributeError,
   add_ui [Expander [Lit "🔍 ナレッジベースから検索結果を取得しました"] false []]
     Sample.fresh) /\
  display_observation_details VNone Sample.fresh = (Raise AttributeError, Sample.fresh).
Proof.
  exact (present_non_dict_output_raises Sample.null_lookup_output VNone Sample.fresh
           eq_refl eq_refl eq_refl).
Defined.

(** ** The error popup and the [except] clause *)

(** X12. [show_error_popup] returns exactly when its argument is one of the
    two token names, and then draws one error message; for any other name it
    raises [UnboundLocalError] and draws nothing, the message never having
    been assigned. *)
Theorem show_error_popup_known_names name w :
  (fst (show_error_popup name w) = Ok tt <->
   name = "dependencyFailedException" \/ name = "throttlingException") /\
  (fst (show_error_popup name w) = Ok tt ->
   exists message, snd (show_error_popup name w) = add_ui [StError message] w) /\
  (fst (show_error_popup name w) <> Ok tt ->
   show_error_popup name w = (Raise UnboundLocalError, w)).
Proof.
  unfold show_error_popup, bind, ret, raise.
  destruct (String.eqb name "dependencyFailedException") eqn:Hd;
    [| destruct (String.eqb name "throttlingException") eqn:Ht]; cbn.
  - apply String.eqb_eq in Hd; repeat split; eauto; intros H; now destruct H.
  - apply String.eqb_eq in Ht; repeat split; eauto; intros H; now destruct H.
  - apply String.eqb_neq in Hd, Ht; repeat split; try discriminate.
    intros [H | H]; contradiction.
Qed.

(** X13. The [except] clause never replaces the exception it was given.  It
    either raises that same exception again and leaves the world as it was,
    or, for an exception of a transport class only, returns with exactly one
    of the two error messages drawn; the [UnboundLocalError] of
    [show_error_popup] cannot come out of it. *)
Theorem except_clause_outcomes e w :
  main_except e w = (Raise e, w) \/
  is_transport_error e = true /\
  (main_except e w = (Ok tt, add_ui [StError dependency_message] w) \/
   main_except e w = (Ok tt, add_ui [StError throttling_message] w)).
Proof.
  destruct e; cbn [main_except is_transport_error]; auto;
    (destruct (contains "dependencyFailedException" str); [right; auto |]);
    (destruct (contains "throttlingException" str); [right; auto | left; auto]).
Qed.

Lemma messages_differ : String.eqb dependency_message throttling_message = false.
Proof. reflexivity. Qed.

(** X14. The dependency message is drawn exactly when the dependency token
    occurs somewhere in the text of a transport exception, as it is written
    (the test is a substring test, case and all), whatever else the text
    holds. *)
Theorem dependency_message_iff_token str w :
  (main_except (ClientError str) w = (Ok tt, add_ui [StError dependency_message] w) <->
   exists before after,
     str = (before ++ "dependencyFailedException" ++ after)%string) /\
  (main_except (EventStreamError str) w =
   (Ok tt, add_ui [StError dependency_message] w) <->
   exists before after,
     str = (before ++ "dependencyFailedException" ++ after)%string).
Proof.
  rewrite <- contains_spec; cbn [main_except].
  assert (H : (if contains "dependencyFailedException" str
               then show_error_popup "dependencyFailedException"
               else if contains "throttlingException" str
                    then show_error_popup "throttlingException"
                    else raise (ClientError str)) w =
              (Ok tt, add_ui [StError dependency_message] w) <->
              contains "dependencyFailedException" str = true).
  { destruct (contains "dependencyFailedException" str); [now split |].
    split; [| discriminate].
    destruct (contains "throttlingException" str); [| discriminate].
    intros [= Hw]; apply app_inv_head in Hw; injection Hw as Hm.
    pose proof messages_differ as Hd; apply String.eqb_neq in Hd; congruence. }
  split; [exact H |].
  destruct (contains "dependencyFailedException" str); [now split |].
  split; [| discriminate].
  destruct (contains "throttlingException" str); [| discriminate].
  intros [= Hw]; apply app_inv_head in Hw; injection Hw as Hm.
  pose proof messages_differ as Hd; apply String.eqb_neq in Hd; congruence.
Qed.

(** ** The bytes of a chunk *)

(** X15. An event with a chunk and no trace field, in a session with a
    history.  When the bytes of the chunk are well-formed UTF-8 the answer is
    written and appended as one assistant entry, and its text encodes back to
    the very bytes of the chunk; when they are not, the handler raises
    [UnicodeDecodeError] and neither draws nor appends. *)
Theorem chunk_bytes_round_trip env d c bs l w :
  lookup "trace" d = None ->
  lookup "chunk" d = Some (VDict c) ->
  lookup "bytes" c = Some (VBytes bs) ->
  messages w = Some l ->
  (utf8_valid bs = true ->
   exists s,
     list_byte_of_string s = bs /\
     handle_event env (VDict d) w =
     (Ok tt, set_messages (Some (l ++ [mkMessage "assistant" s]))
               (add_ui [StWrite (VStr s)] w))) /\
  (utf8_valid bs = false ->
   handle_event env (VDict d) w = (Raise UnicodeDecodeError, w)).
Proof.
  intros Ht Hc Hb Hm.
  assert (Hrun : handle_event env (VDict d) w =
                 match bytes_decode bs with
                 | Ok s => (Ok tt, set_messages (Some (l ++ [mkMessage "assistant" s]))
                                     (add_ui [StWrite (VStr s)] w))
                 | Raise e => (Raise e, w)
                 end).
  { unfold handle_event, bind, eval; cbn [py_in]; unfold has_key.
    rewrite Ht, Hc; cbn [ret subscripts subscript rbind]; rewrite Hc.
    cbn [rbind subscript]; rewrite Hb; cbn [rbind decode].
    destruct (bytes_decode bs) as [s|e]; [| reflexivity].
    unfold draw, messages_append; cbn; now rewrite Hm. }
  rewrite Hrun; unfold bytes_decode; split; intros ->; [| reflexivity].
  exists (string_of_list_byte bs); split; [| reflexivity].
  apply list_byte_of_string_of_list_byte.
Qed.

Lemma chunk_bytes_round_trip_witness :
  (utf8_valid (list_byte_of_string "思考") = true ->
   exists s,
     list_byte_of_string s = list_byte_of_string "思考" /\
     handle_event Sample.quiet (Sample.chunk_event "思考") (Sample.started []) =
     (Ok tt, set_messages (Some ([] ++ [mkMessage "assistant" s]))
               (add_ui [StWrite (VStr s)] (Sample.started [])))) /\
  (utf8_valid (list_byte_of_string "思考") = false ->
   handle_event Sample.quiet (Sample.chunk_event "思考") (Sample.started []) =
   (Raise UnicodeDecodeError, Sample.started [])).
Proof.
  exact (chunk_bytes_round_trip Sample.quiet
           [("chunk", VDict [("bytes", VBytes (list_byte_of_string "思考"))])]
           [("bytes", VBytes (list_byte_of_string "思考"))]
           (list_byte_of_string "思考") [] (Sample.started [])
           eq_refl eq_refl eq_refl eq_refl).
Defined.

Example truncated_character_rejected :
  handle_event Sample.quiet
    (VDict [("chunk", VDict [("bytes", VBytes [xe6; x80])])]) (Sample.started []) =
  (Raise UnicodeDecodeError, Sample.started []).
Proof. reflexivity. Qed.

(** ** Where the consumption of a stream stops *)

Lemma for_each_app {A} (xs ys : list A) (body : A -> M unit) w :
  for_each (xs ++ ys) body w = (for_each xs body ;; for_each ys body) w.
Proof.
  revert w; induction xs as [|x xs IH]; intros w; cbn [app for_each].
  - reflexivity.
  - unfold bind in IH |- *; destruct (body x w) as [[[]|e] w1]; [| reflexivity].
    apply IH.
Qed.

(** X16. The consumption stops at the first event whose handling raises.
    When the events [xs] are handled and the next event raises, the response
    raises that exception in the world that event left, with what was drawn
    so far in the assistant bubble; the events after it and a failure of the
    stream itself have no effect. *)
Theorem consumption_stops_at_first_raise env xs event ys f w w1 e w2 :
  for_each xs (handle_event env) (set_ui [] w) = (Ok tt, w1) ->
  handle_event env event w1 = (Raise e, w2) ->
  handle_agent_response env (mkResponse (Some (mkStream (xs ++ event :: ys) f))) w =
  (Raise e, set_ui (ui w ++ [ChatMessage "assistant" (ui w2)]) w2).
Proof.
  intros Hxs Hev; rewrite handle_agent_response_run; cbn [events].
  rewrite for_each_app; unfold bind at 1; rewrite Hxs.
  cbn [for_each]; unfold bind; now rewrite Hev.
Qed.

Lemma consumption_stops_at_first_raise_witness :
  handle_agent_response Sample.quiet
    (mkResponse
       (Some (mkStream ([Sample.chunk_event "Hel"] ++
                        VDict Sample.hollow_trace_fields :: [Sample.chunk_event "lo"])
                (Some (EventStreamError Sample.throttled_text)))))
    (Sample.started []) =
  (Raise (KeyError (K "trace")),
   add_ui [ChatMessage "assistant" [StWrite (VStr "Hel")]]
     (Sample.started [mkMessage "assistant" "Hel"])).
Proof.
  exact (consumption_stops_at_first_raise Sample.quiet [Sample.chunk_event "Hel"]
           (VDict Sample.hollow_trace_fields) [Sample.chunk_event "lo"]
           (Some (EventStreamError Sample.throttled_text)) (Sample.started [])
           _ (KeyError (K "trace")) _ eq_refl eq_refl).
Defined.

(** X17. A failure of the stream is raised after its events are handled and
    undoes nothing.  When the events of a stream are all handled, the
    response of the stream that then fails with [e] raises [e] in the very
    world the response of the same events without a failure returns in. *)
Theorem stream_failure_after_events env evs e w w' :
  handle_agent_response env (mkResponse (Some (mkStream evs None))) w = (Ok tt, w') ->
  handle_agent_response env (mkResponse (Some (mkStream evs (Some e)))) w =
  (Raise e, w').
Proof.
  rewrite !handle_agent_response_run; cbn [events failure].
  destruct (for_each evs (handle_event env) (set_ui [] w)) as [[[]|e'] w1];
    [| discriminate].
  now intros [= <-].
Qed.

Lemma stream_failure_after_events_witness :
  handle_agent_response Sample.quiet
    (mkResponse (Some (mkStream [Sample.chunk_event "Hel"]
                         (Some (EventStreamError Sample.throttled_text)))))
    (Sample.started []) =
  (Raise (EventStreamError Sample.throttled_text),
   add_ui [ChatMessage "assistant" [StWrite (VStr "Hel")]]
     (Sample.started [mkMessage "assistant" "Hel"])).
Proof.
  exact (stream_failure_after_events Sample.quiet [Sample.chunk_event "Hel"]
           (EventStreamError Sample.throttled_text) (Sample.started []) _ eq_refl).
Defined.
